(** * The libeufin EBICS integration test: a shallow embedding

    The harness consists of [integration-tests/util.py] (JSON structural
    checkers, port check, process supervision with readiness polling) and
    the script [integration-tests/test-ebics.py] (the ordered chain of HTTP
    requests).  Python code is embedded as computations in a state and
    exception monad over a [world]: the environment that answers the
    harness's system calls and HTTP requests, the log of the effects
    performed so far, the [atexit] registry, the table of child processes
    and the table of TCP ports in use. *)

From Stdlib Require Import Ascii String.
From stdpp Require Import base gmap strings list pretty.

Set Warnings "-register-all".

Local Open Scope Z_scope.
Local Open Scope string_scope.
Local Open Scope list_scope.

(** ** JSON values, as [json.loads] / [Response.json()] produce them *)

(** A JSON object is a Python [dict] keyed by strings, a JSON array a Python
    [list], [null] is [None].  Numbers are the integers (no claim inspects a
    number). *)
Inductive json :=
| JNull
| JBool (b : bool)
| JNum (n : Z)
| JStr (s : string)
| JArr (l : list json)
| JObj (o : gmap string json).

(** An f-string / [str.format] result with at most the interpolated JSON
    values kept symbolic: [f"...{v}..."] is [[Lit "..."; Fmt v; Lit "..."]]. *)
Inductive fpart :=
| Lit (s : string)
| Fmt (v : json).

Definition fstring := list fpart.

(** ** Exceptions *)

(** [exit(n)] and [sys.exit(n)] raise [SystemExit(n)]; the other
    constructors are the exceptions the harness can meet. *)
Inductive exn :=
| SystemExit (code : Z)
| NameError (name : string)
| AttributeError (attr : string)
| TypeError (what : string)
| OverflowError
| OSError
| ConnectionError
| CalledProcessError
| JSONDecodeError.

Definition exn_class (e : exn) : string :=
  match e with
  | SystemExit _ => "SystemExit"
  | NameError _ => "NameError"
  | AttributeError _ => "AttributeError"
  | TypeError _ => "TypeError"
  | OverflowError => "OverflowError"
  | OSError => "OSError"
  | ConnectionError => "requests.exceptions.ConnectionError"
  | CalledProcessError => "subprocess.CalledProcessError"
  | JSONDecodeError => "json.decoder.JSONDecodeError"
  end.

(** ** HTTP requests and responses (the [requests] library) *)

Inductive method := GET | POST.

Record request := Request {
  req_method : method;
  req_url : fstring;
  req_headers : list (string * string);
  req_json : option json
}.

(** [resp_ok] is the status classification of the response, [resp_json] the
    parsed body ([None]: the body is not JSON and [.json()] raises). *)
Record response := Response {
  resp_ok : bool;
  resp_json : option json
}.

(** ** Child processes and exit hooks *)

(** A [Popen] handle is the index of the child in the process table. *)
Definition proc := nat.

Inductive proc_state :=
| Running
| Signalled   (* SIGTERM sent, exit status not collected yet *)
| Reaped.     (* exit status collected: [returncode] is set *)

(** The closures registered with [atexit]: [lambda: kill(name, s)]. *)
Inductive hook :=
| KillHook (name : string) (s : proc).

(** ** The JSON structural checkers as data *)

Inductive checker :=
| CheckJsonField (name : string) (nested : list checker)
| CheckJsonTop (checks : list checker).

(** ** Effects log *)

Inductive event :=
| EPrint (s : string)
| ECheckCall (argv : list string) (ok : bool)
| EBind (port : Z) (ok : bool)
| EClose (port : Z)
| EPopen (argv : list string) (stdout stderr : string) (p : proc)
| ERegister (h : hook)
| EHttp (r : request) (a : option response)
| ESleep (secs : Z)
| ETerminate (p : proc)
| EWait (p : proc)
| ECallHook (h : hook)           (* the interpreter calls an exit hook *)
| EPrintResponse (r : response)   (* status and body diagnostics *)
| ETraceback (e : exn).

(** ** The environment *)

(** What the harness does not decide: the outcome of each blocking
    subprocess and of each HTTP request (both may depend on everything that
    happened before), the working directory, and the two checkers of the
    module [json_checks]. *)
Record env := Env {
  env_check_call : list event -> list string -> bool;
  env_http : list event -> request -> option response;
  env_cwd_join : string -> string;      (* [str(Path.cwd() / name)] *)
  env_checkFetchTransactions : checker;
  env_checkPreparedPaymentElement : checker
}.

Record world := World {
  w_env : env;
  w_trace : list event;          (* oldest first *)
  w_hooks : list hook;           (* in registration order *)
  w_procs : list proc_state;     (* indexed by handle *)
  w_ports : gset Z               (* TCP ports in use on 0.0.0.0 *)
}.

Definition set_trace (t : list event) (w : world) : world :=
  World (w_env w) t (w_hooks w) (w_procs w) (w_ports w).

Definition set_hooks (h : list hook) (w : world) : world :=
  World (w_env w) (w_trace w) h (w_procs w) (w_ports w).

Definition set_procs (p : list proc_state) (w : world) : world :=
  World (w_env w) (w_trace w) (w_hooks w) p (w_ports w).

Definition set_ports (p : gset Z) (w : world) : world :=
  World (w_env w) (w_trace w) (w_hooks w) (w_procs w) p.

Definition log (evs : list event) (w : world) : world :=
  set_trace (w_trace w ++ evs) w.

(** ** The monad *)

Inductive result (A : Type) :=
| Ok (a : A)
| Raise (e : exn).

Arguments Ok {A} a.
Arguments Raise {A} e.

Definition M (A : Type) : Type := world -> result A * world.

Definition ret {A} (a : A) : M A := fun w => (Ok a, w).

Definition bind {A B} (m : M A) (k : A -> M B) : M B :=
  fun w => match m w with
           | (Ok a, w') => k a w'
           | (Raise e, w') => (Raise e, w')
           end.

Definition raise {A} (e : exn) : M A := fun w => (Raise e, w).

Declare Scope py_scope.
Delimit Scope py_scope with py.
Notation "x <- m ;; k" := (bind m (fun x => k))
  (at level 100, m at next level, right associativity,
   format "'[v' x  <-  m  ;; '/' k ']'") : py_scope.
Notation "m ;; k" := (bind m (fun _ => k))
  (at level 100, right associativity,
   format "'[v' m  ;; '/' k ']'") : py_scope.
Local Open Scope py_scope.

(** A bare [except:] clause: it catches every exception, [SystemExit]
    included. *)
Definition try_except {A} (body : M A) (handler : exn -> M A) : M A :=
  fun w => match body w with
           | (Ok a, w') => (Ok a, w')
           | (Raise e, w') => handler e w'
           end.

(** [for x in xs: body], where the body says how it ends: by falling through
    or [continue] ([Continue]), or by [break] ([Break]). *)
Inductive loop_ctl := Continue | Break.

Definition for_in {X} (body : X -> M loop_ctl) : list X -> M unit :=
  fix go (xs : list X) : M unit :=
    match xs with
    | [] => ret tt
    | x :: rest =>
        c <- body x ;;
        match c with
        | Continue => go rest
        | Break => ret tt
        end
    end.

(** [range(n)] *)
Definition range (n : nat) : list nat := seq 0 n.

(** ** Primitive effects *)

Definition emit (e : event) : M unit := fun w => (Ok tt, log [e] w).

Definition print (s : string) : M unit := emit (EPrint s).

Definition exit {A} (code : Z) : M A := raise (SystemExit code).

Definition sleep (secs : Z) : M unit := emit (ESleep secs).

(** [subprocess.check_call]: blocks until the command ends and raises when
    it fails. *)
Definition check_call (argv : list string) : M unit :=
  fun w =>
    let ok := env_check_call (w_env w) (w_trace w) argv in
    (if ok then Ok tt else Raise CalledProcessError, log [ECheckCall argv ok] w).

(** [s.bind(("0.0.0.0", port))] on a fresh socket with [SO_REUSEADDR]. *)
Definition socket_bind (port : Z) : M unit :=
  fun w =>
    if negb (bool_decide (0 <= port <= 65535)) then
      (Raise OverflowError, log [EBind port false] w)
    else if bool_decide (port ∈ w_ports w) then
      (Raise OSError, log [EBind port false] w)
    else
      (Ok tt, log [EBind port true] (set_ports ({[port]} ∪ w_ports w) w)).

(** [s.close()] of the socket bound to [port]. *)
Definition socket_close (port : Z) : M unit :=
  fun w => (Ok tt, log [EClose port] (set_ports (w_ports w ∖ {[port]}) w)).

(** [Popen(argv, stdin=DEVNULL, stdout=open(out, "w"), stderr=open(err, "w"))] *)
Definition Popen (argv : list string) (out err : string) : M proc :=
  fun w =>
    let p := length (w_procs w) in
    (Ok p, log [EPopen argv out err p] (set_procs (w_procs w ++ [Running]) w)).

Definition atexit_register (h : hook) : M unit :=
  fun w => (Ok tt, log [ERegister h] (set_hooks (w_hooks w ++ [h]) w)).

(** [Popen.terminate]: sends SIGTERM unless the exit status was already
    collected. *)
Definition terminate (p : proc) : M unit :=
  fun w =>
    let procs' :=
      match w_procs w !! p with
      | Some Running => <[p := Signalled]> (w_procs w)
      | _ => w_procs w
      end in
    (Ok tt, log [ETerminate p] (set_procs procs' w)).

(** [Popen.wait]: collects the exit status. *)
Definition wait (p : proc) : M unit :=
  fun w => (Ok tt, log [EWait p] (set_procs (<[p := Reaped]> (w_procs w)) w)).

(** [Popen.communicate] of a child whose stdout and stderr go to files, not
    pipes: waits and returns [(None, None)]. *)
Definition communicate (p : proc) : M (option string * option string) :=
  wait p ;; ret (None, None).

(** [b.decode()]; on [None] the attribute does not exist. *)
Definition decode (b : option string) : M string :=
  match b with
  | Some s => ret s
  | None => raise (AttributeError "decode")
  end.

(** Reading a name that is bound neither locally nor in the module. *)
Definition unbound_name {A} (name : string) : M A := raise (NameError name).

(** [requests.get] / [requests.post]: a response, or a connection error. *)
Definition http (r : request) : M response :=
  fun w =>
    let a := env_http (w_env w) (w_trace w) r in
    (match a with Some resp => Ok resp | None => Raise ConnectionError end,
     log [EHttp r a] w).

Definition get (url : fstring) (headers : list (string * string)) : M response :=
  http (Request GET url headers None).

Definition post (url : fstring) (headers : list (string * string))
    (body : option json) : M response :=
  http (Request POST url headers body).

(** [Response.json()] *)
Definition resp_json_m (r : response) : M json :=
  match resp_json r with
  | Some j => ret j
  | None => raise JSONDecodeError
  end.

(** ** Python operations on JSON values *)

Fixpoint is_prefix (p s : string) : bool :=
  match p, s with
  | EmptyString, _ => true
  | String a p', String b s' => bool_decide (a = b) && is_prefix p' s'
  | String _ _, EmptyString => false
  end.

Fixpoint is_substring (p s : string) : bool :=
  is_prefix p s ||
  match s with
  | EmptyString => false
  | String _ s' => is_substring p s'
  end.

Definition is_JStr (name : string) (j : json) : bool :=
  match j with
  | JStr s => bool_decide (s = name)
  | _ => false
  end.

(** [name in j] for a string [name]: key membership in a dict, element
    membership in a list, substring test in a string; the other values are
    not containers. *)
Definition py_in (name : string) (j : json) : M bool :=
  match j with
  | JObj o => ret (bool_decide (is_Some (o !! name)))
  | JArr l => ret (existsb (is_JStr name) l)
  | JStr s => ret (is_substring name s)
  | _ => raise (TypeError "argument is not iterable")
  end.

(** [j.get(name)]: [None] when the key is missing; only dicts have [get]. *)
Definition py_get (j : json) (name : string) : M json :=
  match j with
  | JObj o => ret (default JNull (o !! name))
  | _ => raise (AttributeError "get")
  end.

(** A string holds the UTF-8 bytes of a Python [str]; the code points are
    the bytes that are no continuation byte ([10xxxxxx]). *)
Definition utf8_continuation (a : ascii) : bool :=
  match a with
  | Ascii _ _ _ _ _ _ b6 b7 => b7 && negb b6
  end.

Fixpoint utf8_length (s : string) : nat :=
  match s with
  | EmptyString => 0%nat
  | String a s' =>
      ((if utf8_continuation a then 0 else 1) + utf8_length s')%nat
  end.

(** [len(j)]: the number of elements, of keys, of code points; the
    [TypeError] carries the end of Python's message, which starts with the
    name of the value's type. *)
Definition py_len (j : json) : M nat :=
  match j with
  | JArr l => ret (length l)
  | JObj o => ret (size o)
  | JStr s => ret (utf8_length s)
  | _ => raise (TypeError "object has no len()")
  end.

(** [j == None] *)
Definition is_None (j : json) : bool :=
  match j with
  | JNull => true
  | _ => false
  end.

Definition obj (kvs : list (string * json)) : json := JObj (list_to_map kvs).

(** ** [base64.b64encode] on ASCII text *)

Definition b64_alphabet : string :=
  "ABCDEFGHIJKLMNOPQRSTUVWXYZabcdefghijklmnopqrstuvwxyz0123456789+/".

Definition b64_digit (n : N) : ascii :=
  default "="%char (String.get (N.to_nat n) b64_alphabet).

Fixpoint b64_groups (bs : list N) : string :=
  match bs with
  | [] => EmptyString
  | [a] =>
      let n := (a * 65536)%N in
      String (b64_digit (n / 262144)) (String (b64_digit (n / 4096 mod 64)) "==")
  | [a; b] =>
      let n := (a * 65536 + b * 256)%N in
      String (b64_digit (n / 262144)) (String (b64_digit (n / 4096 mod 64))
        (String (b64_digit (n / 64 mod 64)) "="))
  | a :: b :: c :: rest =>
      let n := (a * 65536 + b * 256 + c)%N in
      String (b64_digit (n / 262144)) (String (b64_digit (n / 4096 mod 64))
        (String (b64_digit (n / 64 mod 64)) (String (b64_digit (n mod 64))
          (b64_groups rest))))
  end.

Definition b64encode (s : string) : string :=
  b64_groups (map N_of_ascii (list_ascii_of_string s)).

(** * util.py *)

Module util.

(** [CheckJsonField.check] and [CheckJsonTop.check].  In the loop over
    [self.nested] the callee is read as [self.nested_check], an attribute the
    instance does not have (its attributes are [name] and [nested]); the
    callee is evaluated before the argument [json.get(self.name)]. *)
Fixpoint check (self : checker) (j : json) : M unit :=
  match self with
  | CheckJsonField name nested =>
      present <- py_in name j ;;
      (if negb present then
         print ("'" +:+ name +:+ "' not found in the JSON.") ;;
         exit 1
       else ret tt) ;;
      for_in (fun _nested_check : checker =>
                callee <- (raise (AttributeError "nested_check")
                           : M (json -> M unit)) ;;
                arg <- py_get j name ;;
                callee arg ;;
                ret Continue) nested
  | CheckJsonTop checks =>
      for_in (fun c => check c j ;; ret Continue) checks
  end.

(** Creating the socket and setting [SO_REUSEADDR] touch neither the log
    nor the port table; the [try] body is the bind and the close. *)
Definition checkPort (port : Z) : M unit :=
  try_except
    (socket_bind port ;;
     socket_close port)
    (fun e =>
       print ("Port " +:+ pretty port +:+ " is not available") ;;
       print ("<class '" +:+ exn_class e +:+ "'>") ;;
       exit 77).

Definition kill (name : string) (s : proc) : M unit :=
  print ("terminating " +:+ name +:+ " ...") ;;
  terminate s ;;
  wait s ;;
  print "terminated!".

Definition newline : string := String (ascii_of_nat 10) EmptyString.

Definition SANDBOX_ROOT : fstring := [Lit "http://localhost:5000/"].
Definition NEXUS_ROOT : fstring := [Lit "http://localhost:5001/"].

(** The loop [for i in range(10)] of [startSandbox]. *)
Definition startSandbox_loop : M unit :=
  for_in
    (fun i : nat =>
       try_except
         (get SANDBOX_ROOT [] ;;
          ret Break)
         (fun _ =>
            (if bool_decide (i = 9%nat) then
               so <- (nexus <- unbound_name "nexus" ;; communicate nexus) ;;
               print "Sandbox timed out" ;;
               out <- decode (fst so) ;;
               err <- decode (snd so) ;;
               print (out +:+ newline +:+ err) ;;
               exit 77
             else ret tt) ;;
            sleep 2 ;;
            ret Continue))
    (range 10).

Definition startSandbox (dbname : string) : M unit :=
  fun w =>
    let db_full_path := env_cwd_join (w_env w) dbname in
    (check_call ["rm"; "-f"; db_full_path] ;;
     check_call ["../gradlew"; "-p"; ".."; "sandbox:assemble"] ;;
     checkPort 5000 ;;
     sandbox <- Popen ["../gradlew"; "-p"; ".."; "sandbox:run"; "--console=plain";
                       "--args=serve --db-name=" +:+ db_full_path]
                      "sandbox-stdout.log" "sandbox-stderr.log" ;;
     atexit_register (KillHook "sandbox" sandbox) ;;
     startSandbox_loop) w.

Definition startSandbox_dbname : string := "sandbox-test.sqlite3".

(** The loop [for i in range(80)] of [startNexus]. *)
Definition startNexus_loop (nexus : proc) : M unit :=
  for_in
    (fun i : nat =>
       try_except
         (get NEXUS_ROOT [] ;;
          ret Break)
         (fun _ =>
            (if bool_decide (i = 79%nat) then
               terminate nexus ;;
               print "Nexus timed out" ;;
               exit 77
             else ret tt) ;;
            sleep 1 ;;
            ret Continue))
    (range 80).

Definition startNexus (dbname : string) : M proc :=
  fun w =>
    let db_full_path := env_cwd_join (w_env w) dbname in
    (check_call ["rm"; "-f"; "--"; db_full_path] ;;
     check_call ["../gradlew"; "-p"; ".."; "nexus:assemble"] ;;
     check_call ["../gradlew"; "-p"; ".."; "nexus:run"; "--console=plain";
                 "--args=superuser admin --password x --db-name=" +:+ db_full_path] ;;
     checkPort 5001 ;;
     nexus <- Popen ["../gradlew"; "-p"; ".."; "nexus:run"; "--console=plain";
                     "--args=serve --db-name=" +:+ db_full_path]
                    "nexus-stdout.log" "nexus-stderr.log" ;;
     atexit_register (KillHook "nexus" nexus) ;;
     startNexus_loop nexus ;;
     ret nexus) w.

(** Modelled from the spec: [assertResponse] is imported from [util] by the
    script, but its definition is not in the sources at hand.  "Wrap exactly
    one HTTP response.  Inspect its status classification; if it denotes
    failure, print response status/body diagnostics and terminate the process
    with a failing exit code.  If it denotes success, return the response
    unchanged."  The failing exit code is taken to be 1, the code of the
    other assertion failures. *)
Definition assertResponse (r : response) : M response :=
  if resp_ok r then ret r
  else emit (EPrintResponse r) ;; exit 1.

End util.

(** Modelled from the spec: the module [json_checks] is not in the sources
    at hand.  Its two functions are structural checkers built from the two
    classes of [util]; which fields they look for is left to the
    environment.  [checkFetchTransactions] is applied to a request body that
    is then sent, so it hands its argument back. *)
Module json_checks.

Definition checkFetchTransactions (j : json) : M json :=
  fun w => (util.check (env_checkFetchTransactions (w_env w)) j ;; ret j) w.

Definition checkPreparedPaymentElement (j : json) : M unit :=
  fun w => util.check (env_checkPreparedPaymentElement (w_env w)) j w.

End json_checks.

(** * test-ebics.py *)

Module test_ebics.

Import util json_checks.

(** Nexus user details *)
Definition USERNAME : string := "person".
Definition PASSWORD : string := "y".
Definition USER_AUTHORIZATION_HEADER : string :=
  "basic " +:+ b64encode "person:y".

(** Admin authentication *)
Definition ADMIN_AUTHORIZATION_HEADER : string :=
  "basic " +:+ b64encode "admin:x".

(** EBICS details *)
Definition EBICS_URL : string := "http://localhost:5000/ebicsweb".
Definition HOST_ID : string := "HOST01".
Definition PARTNER_ID : string := "PARTNER1".
Definition USER_ID : string := "USER1".
Definition EBICS_VERSION : string := "H004".

(** Subscriber's bank account *)
Definition SUBSCRIBER_IBAN : string := "GB33BUKB20201555555555".
Definition SUBSCRIBER_BIC : string := "BUKBGB22".
Definition SUBSCRIBER_NAME : string := "Oliver Smith".
Definition BANK_ACCOUNT_LABEL : string := "savings".

(** Databases *)
Definition NEXUS_DB : string := "test-nexus.sqlite3".

Definition fail {A} (msg : string) : M A :=
  print msg ;;
  exit 1.

Definition user_headers : list (string * string) :=
  [("Authorization", USER_AUTHORIZATION_HEADER)].

Definition admin_headers : list (string * string) :=
  [("Authorization", ADMIN_AUTHORIZATION_HEADER)].

Definition subscriber : json :=
  obj [("hostID", JStr HOST_ID); ("partnerID", JStr PARTNER_ID);
       ("userID", JStr USER_ID)].

Definition fetch_body : json :=
  obj [("level", JStr "all"); ("rangeType", JStr "all")].

Definition account_url (suffix : string) : string :=
  "http://localhost:5001/bank-accounts/" +:+ BANK_ACCOUNT_LABEL +:+ suffix.

(** 0.a *)
Definition step_0a : M unit :=
  r <- post [Lit "http://localhost:5000/admin/ebics/host"] []
         (Some (obj [("hostID", JStr HOST_ID);
                     ("ebicsVersion", JStr EBICS_VERSION)])) ;;
  assertResponse r ;;
  ret tt.

(** 0.b *)
Definition step_0b : M unit :=
  r <- post [Lit "http://localhost:5000/admin/ebics/subscribers"] []
         (Some subscriber) ;;
  assertResponse r ;;
  ret tt.

(** 0.c *)
Definition step_0c : M unit :=
  r <- post [Lit "http://localhost:5000/admin/ebics/bank-accounts"] []
         (Some (obj [("subscriber", subscriber);
                     ("iban", JStr SUBSCRIBER_IBAN);
                     ("bic", JStr SUBSCRIBER_BIC);
                     ("name", JStr SUBSCRIBER_NAME);
                     ("label", JStr BANK_ACCOUNT_LABEL)])) ;;
  assertResponse r ;;
  ret tt.

(** 1.a, make a new nexus user. *)
Definition step_1a : M unit :=
  r <- post [Lit "http://localhost:5001/users"] admin_headers
         (Some (obj [("username", JStr USERNAME);
                     ("password", JStr PASSWORD)])) ;;
  assertResponse r ;;
  print "creating bank connection".

(** 1.b, make a ebics bank connection for the new user. *)
Definition step_1b : M unit :=
  r <- post [Lit "http://localhost:5001/bank-connections"] user_headers
         (Some (obj [("name", JStr "my-ebics");
                     ("source", JStr "new");
                     ("type", JStr "ebics");
                     ("data", obj [("ebicsURL", JStr EBICS_URL);
                                   ("hostID", JStr HOST_ID);
                                   ("partnerID", JStr PARTNER_ID);
                                   ("userID", JStr USER_ID)])])) ;;
  assertResponse r ;;
  print "sending ini & hia".

(** 2.a, upload keys to the bank (INI & HIA) *)
Definition step_2a : M unit :=
  r <- post [Lit "http://localhost:5001/bank-connections/my-ebics/ebics/send-ini"]
         user_headers (Some (obj [])) ;;
  assertResponse r ;;
  r <- post [Lit "http://localhost:5001/bank-connections/my-ebics/ebics/send-hia"]
         user_headers (Some (obj [])) ;;
  assertResponse r ;;
  ret tt.

(** 2.b, download keys from the bank (HPB) *)
Definition step_2b : M unit :=
  r <- post [Lit "http://localhost:5001/bank-connections/my-ebics/ebics/send-hpb"]
         user_headers (Some (obj [])) ;;
  assertResponse r ;;
  ret tt.

(** Test download transaction (TSD, LibEuFin-specific test order type) *)
Definition step_tsd : M unit :=
  r <- post [Lit "http://localhost:5001/bank-connections/my-ebics/ebics/download/tsd"]
         user_headers None ;;
  assertResponse r ;;
  ret tt.

(** 2.c, fetch bank account information *)
Definition step_2c : M unit :=
  r <- post [Lit "http://localhost:5001/bank-connections/my-ebics/ebics/import-accounts"]
         user_headers (Some (obj [])) ;;
  assertResponse r ;;
  ret tt.

(** 3, ask nexus to download history *)
Definition step_3 : M unit :=
  r <- post [Lit (account_url "/fetch-transactions")] user_headers
         (Some fetch_body) ;;
  assertResponse r ;;
  ret tt.

Definition transactions_request : request :=
  Request GET [Lit (account_url "/transactions")] user_headers None.

(** 4, make sure history is empty *)
Definition step_4 : M unit :=
  r <- http transactions_request ;;
  resp <- assertResponse r ;;
  j <- resp_json_m resp ;;
  t <- py_get j "transactions" ;;
  n <- py_len t ;;
  if negb (bool_decide (n = 0%nat)) then
    fail "unexpected number of transactions"
  else ret tt.

Definition payment_request : request :=
  Request POST [Lit (account_url "/payment-initiations")] user_headers
    (Some (obj [("iban", JStr "FR7630006000011234567890189");
                ("bic", JStr "AGRIFRPP");
                ("name", JStr "Jacques La Fayette");
                ("subject", JStr "integration test");
                ("amount", JStr "EUR:1")])).

(** 5.a, prepare a payment; the result is [PREPARED_PAYMENT_UUID]. *)
Definition step_5a : M json :=
  r <- http payment_request ;;
  resp <- assertResponse r ;;
  j <- resp_json_m resp ;;
  PREPARED_PAYMENT_UUID <- py_get j "uuid" ;;
  (if is_None PREPARED_PAYMENT_UUID then
     fail "Payment UUID not received"
   else ret tt) ;;
  ret PREPARED_PAYMENT_UUID.

Definition prepared_payment_request (PREPARED_PAYMENT_UUID : json) : request :=
  Request GET
    [Lit (account_url "/payment-initiations/"); Fmt PREPARED_PAYMENT_UUID]
    user_headers None.

Definition step_5a_inspect (PREPARED_PAYMENT_UUID : json) : M unit :=
  r <- http (prepared_payment_request PREPARED_PAYMENT_UUID) ;;
  resp <- assertResponse r ;;
  j <- resp_json_m resp ;;
  checkPreparedPaymentElement j.

Definition submit_request (PREPARED_PAYMENT_UUID : json) : request :=
  Request POST
    [Lit (account_url "/payment-initiations/"); Fmt PREPARED_PAYMENT_UUID;
     Lit "/submit"]
    user_headers (Some (obj [])).

(** 5.b, submit prepared statement *)
Definition step_5b (PREPARED_PAYMENT_UUID : json) : M unit :=
  r <- http (submit_request PREPARED_PAYMENT_UUID) ;;
  assertResponse r ;;
  ret tt.

(** 6, request history after payment submission *)
Definition step_6_fetch : M unit :=
  body <- checkFetchTransactions fetch_body ;;
  r <- post [Lit (account_url "/fetch-transactions")] user_headers (Some body) ;;
  assertResponse r ;;
  ret tt.

Definition step_6_count : M unit :=
  r <- http transactions_request ;;
  resp <- assertResponse r ;;
  j <- resp_json_m resp ;;
  t <- py_get j "transactions" ;;
  n <- py_len t ;;
  if negb (bool_decide (n = 1%nat)) then
    fail "Unexpected number of transactions; should be 1"
  else ret tt.

(** The script from a given statement to its end. *)
Definition from_step_6_count : M unit :=
  step_6_count ;;
  print "Test passed!".

Definition from_step_6 : M unit :=
  step_6_fetch ;;
  from_step_6_count.

Definition after_prepare (PREPARED_PAYMENT_UUID : json) : M unit :=
  step_5a_inspect PREPARED_PAYMENT_UUID ;;
  step_5b PREPARED_PAYMENT_UUID ;;
  from_step_6.

Definition from_step_5a : M unit :=
  PREPARED_PAYMENT_UUID <- step_5a ;;
  after_prepare PREPARED_PAYMENT_UUID.

Definition from_step_4 : M unit :=
  step_4 ;;
  from_step_5a.

(** The requests of the script, after the two services were started. *)
Definition scenario : M unit :=
  step_0a ;;
  step_0b ;;
  step_0c ;;
  step_1a ;;
  step_1b ;;
  step_2a ;;
  step_2b ;;
  step_tsd ;;
  step_2c ;;
  step_3 ;;
  from_step_4.

(** The whole script. *)
Definition main : M unit :=
  startSandbox startSandbox_dbname ;;
  startNexus NEXUS_DB ;;
  scenario.

End test_ebics.

(** * Running a script as a Python process *)

(** The exit status of the interpreter: 0 after the last statement, the
    argument of [exit], 1 after an uncaught exception. *)
Definition exit_status {A} (r : result A) : Z :=
  match r with
  | Ok _ => 0
  | Raise (SystemExit code) => code
  | Raise _ => 1
  end.

Definition run_hook (h : hook) : M unit :=
  match h with
  | KillHook name s => emit (ECallHook h) ;; util.kill name s
  end.

Fixpoint run_hooks (hs : list hook) : M unit :=
  match hs with
  | [] => ret tt
  | h :: rest => run_hook h ;; run_hooks rest
  end.

(** An uncaught exception other than [SystemExit] prints a traceback; then
    the [atexit] hooks run, last registered first. *)
Definition python (script : M unit) (w : world) : Z * world :=
  let (r, w1) := script w in
  let w2 := match r with
            | Ok _ | Raise (SystemExit _) => w1
            | Raise e => log [ETraceback e] w1
            end in
  (exit_status r, snd (run_hooks (rev (w_hooks w2)) w2)).

(** * Concrete environments *)

Module Sim.

Import test_ebics.

Definition initial_world (e : env) (ports : gset Z) : world :=
  World e [] [] [] ports.

(** The literal text a URL starts with. *)
Definition url_head (r : request) : string :=
  match req_url r with
  | Lit s :: _ => s
  | _ => EmptyString
  end.

Definition is_submit (ev : event) : bool :=
  match ev with
  | EHttp (Request POST [Lit _; Fmt _; Lit "/submit"] _ _) (Some _) => true
  | _ => false
  end.

(** Both services answer every request with success; the payment-initiation
    POST answers [payment_answer]; the transaction list has one entry once a
    payment was submitted, none before. *)
Definition services (payment_answer : json) (tr : list event) (r : request)
    : option response :=
  if String.eqb (url_head r) (account_url "/transactions") then
    Some (Response true
            (Some (obj [("transactions",
                         JArr (if existsb is_submit tr
                               then [obj [("amount", JStr "EUR:1")]]
                               else []))])))
  else if String.eqb (url_head r) (account_url "/payment-initiations") then
    Some (Response true (Some payment_answer))
  else
    Some (Response true (Some (obj [("subject", JStr "integration test")]))).

Definition checks_fetch : checker :=
  CheckJsonTop [CheckJsonField "rangeType" []; CheckJsonField "level" []].

Definition checks_payment : checker :=
  CheckJsonTop [CheckJsonField "subject" []].

Definition cwd_join (name : string) : string := "/tmp/it/" +:+ name.

(** Everything works. *)
Definition good_env (payment_answer : json) : env :=
  Env (fun _ _ => true) (services payment_answer) cwd_join
      checks_fetch checks_payment.

(** The sandbox never answers on port 5000; the nexus does. *)
Definition no_sandbox_env : env :=
  Env (fun _ _ => true)
      (fun tr r => if String.eqb (url_head r) "http://localhost:5000/"
                   then None else services JNull tr r)
      cwd_join checks_fetch checks_payment.

(** The nexus never answers on port 5001; the sandbox does. *)
Definition no_nexus_env : env :=
  Env (fun _ _ => true)
      (fun tr r => if String.eqb (url_head r) "http://localhost:5001/"
                   then None else services JNull tr r)
      cwd_join checks_fetch checks_payment.

(** The transaction list comes without its [transactions] field. *)
Definition no_field_env : env :=
  Env (fun _ _ => true)
      (fun tr r => Some (Response true (Some (obj [("uuid", JStr "u1")]))))
      cwd_join checks_fetch checks_payment.

End Sim.

(** * Vocabulary of the statements *)

(** ** Counting effects in a log *)

Definition count_if (f : event -> bool) (tr : list event) : nat :=
  length (List.filter f tr).

Definition is_terminate (p : proc) (ev : event) : bool :=
  match ev with
  | ETerminate q => bool_decide (q = p)
  | _ => false
  end.

Definition is_wait (p : proc) (ev : event) : bool :=
  match ev with
  | EWait q => bool_decide (q = p)
  | _ => false
  end.

Definition is_hook_call (p : proc) (ev : event) : bool :=
  match ev with
  | ECallHook (KillHook _ q) => bool_decide (q = p)
  | _ => false
  end.

Definition is_print (s : string) (ev : event) : bool :=
  match ev with
  | EPrint s' => bool_decide (s' = s)
  | _ => false
  end.

Definition is_traceback (class : string) (ev : event) : bool :=
  match ev with
  | ETraceback e => String.eqb (exn_class e) class
  | _ => false
  end.

(** The submit request for the payment whose identifier is the string
    [uuid], answered. *)
Definition is_submit_of_str (uuid : string) (ev : event) : bool :=
  match ev with
  | EHttp (Request POST [Lit _; Fmt (JStr u); Lit "/submit"] _ _) (Some _) =>
      String.eqb u uuid
  | _ => false
  end.

(** Any request of the scenario proper: the POSTs, and the GETs that carry a
    header (the readiness probes carry none). *)
Definition is_scenario_request (ev : event) : bool :=
  match ev with
  | EHttp (Request POST _ _ _) _ => true
  | EHttp (Request GET _ (_ :: _) _) _ => true
  | _ => false
  end.

(** The effects that concern a child process once it is launched. *)
Definition is_supervision (ev : event) : bool :=
  match ev with
  | ETerminate _ | EWait _ | ECallHook _ => true
  | _ => false
  end.

(** ** Readiness polling *)

Definition probe (url : fstring) : request := Request GET url [] None.

(** [k] failed probes, each followed by a sleep of [d] seconds. *)
Definition rounds (url : fstring) (d : Z) (k : nat) : list event :=
  concat (replicate k [EHttp (probe url) None; ESleep d]).

(** The body shared by the two polling loops: probe [url]; when the probe
    raises, run [on_timeout] if this is attempt [last], then sleep [d]
    seconds and continue; otherwise break. *)
Definition poll_body (url : fstring) (d : Z) (last : nat) (on_timeout : M unit)
    (i : nat) : M loop_ctl :=
  try_except
    (get url [] ;;
     ret Break)
    (fun _ =>
       (if bool_decide (i = last) then on_timeout else ret tt) ;;
       sleep d ;;
       ret Continue).

(** ** Ports *)

Definition port_free (w : world) (port : Z) : bool :=
  bool_decide (0 <= port <= 65535) && negb (bool_decide (port ∈ w_ports w)).

(** ** Endpoints and their authorization *)

(** The endpoints of §6: the gateway's [/users] is the admin-authorized one,
    the gateway's other endpoints except the readiness probe [/] are the
    user endpoints; the rest are the simulator's endpoints and the probes. *)
Inductive endpoint_kind := AdminAuthorized | UserEndpoint | Unauthenticated.

Definition endpoint_kind_of (r : request) : endpoint_kind :=
  let u := Sim.url_head r in
  if String.eqb u "http://localhost:5001/users" then AdminAuthorized
  else if String.eqb u "http://localhost:5001/" then Unauthenticated
  else if is_prefix "http://localhost:5001/" u then UserEndpoint
  else Unauthenticated.

Fixpoint header (name : string) (hs : list (string * string)) : option string :=
  match hs with
  | [] => None
  | (k, v) :: rest => if String.eqb k name then Some v else header name rest
  end.

Definition authorized (ev : event) : Prop :=
  match ev with
  | EHttp r _ =>
      match endpoint_kind_of r with
      | AdminAuthorized =>
          header "Authorization" (req_headers r)
          = Some ("basic " +:+ b64encode "admin:x")
      | UserEndpoint =>
          header "Authorization" (req_headers r)
          = Some ("basic " +:+ b64encode "person:y")
      | Unauthenticated => True
      end
  | _ => True
  end.

Definition is_request_to (k : endpoint_kind) (ev : event) : bool :=
  match ev with
  | EHttp r _ =>
      match endpoint_kind_of r, k with
      | AdminAuthorized, AdminAuthorized => true
      | UserEndpoint, UserEndpoint => true
      | Unauthenticated, Unauthenticated => true
      | _, _ => false
      end
  | _ => false
  end.

(** ** Relations between the world before and after a computation *)

(** The log grew by effects that satisfy [P]. *)
Definition grows (P : event -> Prop) (w w' : world) : Prop :=
  exists evs, w_trace w' = w_trace w ++ evs /\ Forall P evs.

(** The same, and neither the exit hooks nor the process table changed. *)
Definition quietly (P : event -> Prop) (w w' : world) : Prop :=
  grows P w w' /\ w_hooks w' = w_hooks w /\ w_procs w' = w_procs w.

(** [m] relates every world to the world it leaves. *)
Definition steps (R : relation world) {A} (m : M A) : Prop :=
  forall w, R w (snd (m w)).

Definition unsupervised (ev : event) : Prop := is_supervision ev = false.

(** The request of steps 3 and 6. *)
Definition fetch_request : request :=
  Request POST [Lit (test_ebics.account_url "/fetch-transactions")]
    test_ebics.user_headers (Some test_ebics.fetch_body).

(** The statements [resp = assertResponse(get(...))] and
    [len(resp.json().get("transactions"))] shared by steps 4 and 6. *)
Definition count_transactions : M nat :=
  r <- http test_ebics.transactions_request ;;
  resp <- util.assertResponse r ;;
  j <- resp_json_m resp ;;
  t <- py_get j "transactions" ;;
  py_len t.

(** ** The supervision view of a world *)

(** The exit hooks, the process table and the supervision effects so far. *)
Definition sup_log (w : world) : list event :=
  List.filter is_supervision (w_trace w).

Definition view (w : world) : list hook * list proc_state * list event :=
  (w_hooks w, w_procs w, sup_log w).

(** The process table after [kill(name, p)]. *)
Definition killed (p : proc) (procs : list proc_state) : list proc_state :=
  <[p := Reaped]>
    (match procs !! p with
     | Some Running => <[p := Signalled]> procs
     | _ => procs
     end).

Definition is_Raise {A} (r : result A) : Prop :=
  match r with
  | Ok _ => False
  | Raise _ => True
  end.

(** The supervision view after an exit hook ran, and after a list of them. *)
Definition after_hook (v : list hook * list proc_state * list event) (h : hook)
    : list hook * list proc_state * list event :=
  match v, h with
  | (hooks, procs, sup), KillHook name p =>
      (hooks, killed p procs,
       sup ++ [ECallHook (KillHook name p); ETerminate p; EWait p])
  end.

Definition after_hooks (hs : list hook)
    (v : list hook * list proc_state * list event)
    : list hook * list proc_state * list event :=
  fold_left after_hook hs v.

(** The world right after a child was launched and its hook registered. *)
Definition launched (argv : list string) (out err name : string) (w : world)
    : world :=
  snd (atexit_register (KillHook name (length (w_procs w)))
         (snd (Popen argv out err w))).

(** ** What the spec says [CheckJsonField.check] does *)

(** Following the spec, not the code: "verify the field exists in a JSON
    object; if it does, recursively apply nested checks to the field's
    value; if absent, print a diagnostic naming the missing field and
    terminate with a failing exit code". *)
Fixpoint check_as_specified (c : checker) (j : json) : M unit :=
  match c with
  | CheckJsonField name nested =>
      present <- py_in name j ;;
      (if negb present then
         print ("'" +:+ name +:+ "' not found in the JSON.") ;;
         exit 1
       else ret tt) ;;
      v <- py_get j name ;;
      for_in (fun n => check_as_specified n v ;; ret Continue) nested
  | CheckJsonTop checks =>
      for_in (fun n => check_as_specified n j ;; ret Continue) checks
  end.

(** ** Vocabulary of the further properties *)

(** The diagnostic of a missing field. *)
Definition not_found (name : string) : event :=
  EPrint ("'" +:+ name +:+ "' not found in the JSON.").

(** A field check without nested checks, and a composite of such checks. *)
Definition leaf (name : string) : checker := CheckJsonField name [].

Definition leaves (names : list string) : checker :=
  CheckJsonTop (map leaf names).

Definition is_SystemExit (e : exn) : bool :=
  match e with
  | SystemExit _ => true
  | _ => false
  end.

(** The effects of [kill(name, p)]. *)
Definition kill_events (name : string) (p : proc) : list event :=
  [EPrint ("terminating " +:+ name +:+ " ..."); ETerminate p; EWait p;
   EPrint "terminated!"].

(** The port table is the same before and after. *)
Definition same_ports (w w' : world) : Prop := w_ports w' = w_ports w.

(** What [startSandbox] and [startNexus] log up to the registration of the
    exit hook when every prerequisite succeeds; [db] is the database path,
    [n] the handle of the child. *)
Definition sandbox_prelude (db : string) (n : proc) : list event :=
  [ECheckCall ["rm"; "-f"; db] true;
   ECheckCall ["../gradlew"; "-p"; ".."; "sandbox:assemble"] true;
   EBind 5000 true; EClose 5000;
   EPopen ["../gradlew"; "-p"; ".."; "sandbox:run"; "--console=plain";
           "--args=serve --db-name=" +:+ db]
          "sandbox-stdout.log" "sandbox-stderr.log" n;
   ERegister (KillHook "sandbox" n)].

Definition nexus_prelude (db : string) (n : proc) : list event :=
  [ECheckCall ["rm"; "-f"; "--"; db] true;
   ECheckCall ["../gradlew"; "-p"; ".."; "nexus:assemble"] true;
   ECheckCall ["../gradlew"; "-p"; ".."; "nexus:run"; "--console=plain";
               "--args=superuser admin --password x --db-name=" +:+ db] true;
   EBind 5001 true; EClose 5001;
   EPopen ["../gradlew"; "-p"; ".."; "nexus:run"; "--console=plain";
           "--args=serve --db-name=" +:+ db]
          "nexus-stdout.log" "nexus-stderr.log" n;
   ERegister (KillHook "nexus" n)].

(** A failure of a prerequisite: a build step or the port check. *)
Definition prerequisite_failure {A} (r : result A) : Prop :=
  r = Raise CalledProcessError \/ r = Raise (SystemExit 77).

(** ** How the script ends *)

(** [m] guarantees [Q e w'] whenever it raises [e], leaving the world [w']. *)
Definition raises (Q : exn -> world -> Prop) {A} (m : M A) : Prop :=
  forall w e, fst (m w) = Raise e -> Q e (snd (m w)).

(** [m] guarantees [Q w'] whenever it returns, leaving the world [w']. *)
Definition returns (Q : world -> Prop) {A} (m : M A) : Prop :=
  forall w a, fst (m w) = Ok a -> Q (snd (m w)).

(** [m] raises no [SystemExit]. *)
Definition no_exit {A} (m : M A) : Prop :=
  forall w e, fst (m w) = Raise e -> is_SystemExit e = false.

(** The last effect logged. *)
Definition last_effect (w : world) : option event := last (w_trace w).

(** The diagnostics that precede an [exit(1)] of the source: a message of
    [fail] or the missing-field message of a checker. *)
Definition failure_report (ev : event) : Prop :=
  ev = EPrint "unexpected number of transactions"
  \/ ev = EPrint "Payment UUID not received"
  \/ ev = EPrint "Unexpected number of transactions; should be 1"
  \/ (exists name, ev = not_found name).

(** The diagnostics that precede an [exit(77)]: the timeout message of the
    nexus, or the class of the exception of a failed bind, printed by the
    port check. *)
Definition unavailable_report (ev : event) : Prop :=
  ev = EPrint "Nexus timed out"
  \/ ev = EPrint "<class 'OSError'>"
  \/ ev = EPrint "<class 'OverflowError'>".

(** The response diagnostics that [assertResponse] prints before it
    terminates the run. *)
Definition response_report (ev : event) : Prop :=
  exists r, ev = EPrintResponse r.

(** A [SystemExit] comes right after its diagnostic: the response
    diagnostics, or with code 1 a failure report, or with code 77 an
    unavailability report. *)
Definition exit_reported (e : exn) (w : world) : Prop :=
  match e with
  | SystemExit code =>
      exists ev,
        last_effect w = Some ev
        /\ (response_report ev
            \/ (code = 1 /\ failure_report ev)
            \/ (code = 77 /\ unavailable_report ev))
  | _ => True
  end.

(** The exception is not the exit with code 0. *)
Definition not_exit_0 (e : exn) (w : world) : Prop := e <> SystemExit 0.

(** ** The requests of the scenario *)

(** [m] extends the log by effects that, with the result, satisfy [S]. *)
Definition yields {A} (S : result A -> list event -> Prop) (m : M A) : Prop :=
  forall w, exists evs,
    w_trace (snd (m w)) = w_trace w ++ evs /\ S (fst (m w)) evs.

Definition is_request (ev : event) : bool :=
  match ev with
  | EHttp _ _ => true
  | _ => false
  end.

(** A request that raised a connection error or got a failure status. *)
Definition is_failed_request (ev : event) : bool :=
  match ev with
  | EHttp _ None => true
  | EHttp _ (Some r) => negb (resp_ok r)
  | _ => false
  end.

(** No request follows a failed request. *)
Fixpoint stops_at_failure (evs : list event) : bool :=
  match evs with
  | [] => true
  | ev :: rest =>
      if is_failed_request ev then forallb (fun ev' => negb (is_request ev')) rest
      else stops_at_failure rest
  end.

Definition no_failure (evs : list event) : bool :=
  forallb (fun ev => negb (is_failed_request ev)) evs.

Definition is_Ok {A} (r : result A) : Prop :=
  match r with
  | Ok _ => True
  | Raise _ => False
  end.

(** No request after a failed one; and no failed request at all when the
    computation returns. *)
Definition fail_fast {A} (r : result A) (evs : list event) : Prop :=
  stops_at_failure evs = true /\ (is_Ok r -> no_failure evs = true).

(** The requests in a list of effects, in order. *)
Fixpoint requests_of (evs : list event) : list request :=
  match evs with
  | [] => []
  | EHttp r _ :: rest => r :: requests_of rest
  | _ :: rest => requests_of rest
  end.

(** The requests sent are a prefix of [plan], and all of [plan] when the
    computation returns. *)
Definition sends {A} (plan : list request) (r : result A) (evs : list event)
    : Prop :=
  requests_of evs `prefix_of` plan /\ (is_Ok r -> requests_of evs = plan).

(** The payment initiation of the script, by its method and address. *)
Definition is_payment_initiation (r : request) : bool :=
  match r with
  | Request POST [Lit url] _ _ =>
      String.eqb url
        "http://localhost:5001/bank-accounts/savings/payment-initiations"
  | _ => false
  end.

(** The identifier that the log shows the payment initiation returned: the
    value under "uuid" in the object that answered the first payment
    initiation, [None] when there is no such value. *)
Fixpoint returned_uuid (evs : list event) : json :=
  match evs with
  | [] => JNull
  | EHttp r a :: rest =>
      if is_payment_initiation r then
        match a with
        | Some (Response _ (Some (JObj o))) => default JNull (o !! "uuid")
        | _ => JNull
        end
      else returned_uuid rest
  | _ :: rest => returned_uuid rest
  end.

(** The requests sent follow the plan for the identifier that the log shows
    was returned. *)
Definition sends_returned {A} (plan : json -> list request) (r : result A)
    (evs : list event) : Prop :=
  sends (plan (returned_uuid evs)) r evs.

(** The requests of the script after the payment initiation; [uuid] is the
    identifier of the prepared payment. *)
Definition payment_plan (uuid : json) : list request :=
  [test_ebics.prepared_payment_request uuid;
   test_ebics.submit_request uuid;
   fetch_request;
   test_ebics.transactions_request].

(** The seventeen requests of the scenario of [test-ebics.py] in the order
    of the script, written out; [uuid] is the identifier of the prepared
    payment. *)
Definition scenario_plan (uuid : json) : list request :=
  [Request POST [Lit "http://localhost:5000/admin/ebics/host"] []
     (Some (obj [("hostID", JStr "HOST01"); ("ebicsVersion", JStr "H004")]));
   Request POST [Lit "http://localhost:5000/admin/ebics/subscribers"] []
     (Some (obj [("hostID", JStr "HOST01"); ("partnerID", JStr "PARTNER1");
                 ("userID", JStr "USER1")]));
   Request POST [Lit "http://localhost:5000/admin/ebics/bank-accounts"] []
     (Some (obj [("subscriber",
                  obj [("hostID", JStr "HOST01"); ("partnerID", JStr "PARTNER1");
                       ("userID", JStr "USER1")]);
                 ("iban", JStr "GB33BUKB20201555555555");
                 ("bic", JStr "BUKBGB22");
                 ("name", JStr "Oliver Smith");
                 ("label", JStr "savings")]));
   Request POST [Lit "http://localhost:5001/users"]
     [("Authorization", "basic YWRtaW46eA==")]
     (Some (obj [("username", JStr "person"); ("password", JStr "y")]));
   Request POST [Lit "http://localhost:5001/bank-connections"]
     [("Authorization", "basic cGVyc29uOnk=")]
     (Some (obj [("name", JStr "my-ebics"); ("source", JStr "new");
                 ("type", JStr "ebics");
                 ("data", obj [("ebicsURL", JStr "http://localhost:5000/ebicsweb");
                               ("hostID", JStr "HOST01");
                               ("partnerID", JStr "PARTNER1");
                               ("userID", JStr "USER1")])]));
   Request POST
     [Lit "http://localhost:5001/bank-connections/my-ebics/ebics/send-ini"]
     [("Authorization", "basic cGVyc29uOnk=")] (Some (obj []));
   Request POST
     [Lit "http://localhost:5001/bank-connections/my-ebics/ebics/send-hia"]
     [("Authorization", "basic cGVyc29uOnk=")] (Some (obj []));
   Request POST
     [Lit "http://localhost:5001/bank-connections/my-ebics/ebics/send-hpb"]
     [("Authorization", "basic cGVyc29uOnk=")] (Some (obj []));
   Request POST
     [Lit "http://localhost:5001/bank-connections/my-ebics/ebics/download/tsd"]
     [("Authorization", "basic cGVyc29uOnk=")] None;
   Request POST
     [Lit "http://localhost:5001/bank-connections/my-ebics/ebics/import-accounts"]
     [("Authorization", "basic cGVyc29uOnk=")] (Some (obj []));
   Request POST
     [Lit "http://localhost:5001/bank-accounts/savings/fetch-transactions"]
     [("Authorization", "basic cGVyc29uOnk=")]
     (Some (obj [("level", JStr "all"); ("rangeType", JStr "all")]));
   Request GET
     [Lit "http://localhost:5001/bank-accounts/savings/transactions"]
     [("Authorization", "basic cGVyc29uOnk=")] None;
   Request POST
     [Lit "http://localhost:5001/bank-accounts/savings/payment-initiations"]
     [("Authorization", "basic cGVyc29uOnk=")]
     (Some (obj [("iban", JStr "FR7630006000011234567890189");
                 ("bic", JStr "AGRIFRPP");
                 ("name", JStr "Jacques La Fayette");
                 ("subject", JStr "integration test");
                 ("amount", JStr "EUR:1")]));
   Request GET
     [Lit "http://localhost:5001/bank-accounts/savings/payment-initiations/";
      Fmt uuid]
     [("Authorization", "basic cGVyc29uOnk=")] None;
   Request POST
     [Lit "http://localhost:5001/bank-accounts/savings/payment-initiations/";
      Fmt uuid; Lit "/submit"]
     [("Authorization", "basic cGVyc29uOnk=")] (Some (obj []));
   Request POST
     [Lit "http://localhost:5001/bank-accounts/savings/fetch-transactions"]
     [("Authorization", "basic cGVyc29uOnk=")]
     (Some (obj [("level", JStr "all"); ("rangeType", JStr "all")]));
   Request GET
     [Lit "http://localhost:5001/bank-accounts/savings/transactions"]
     [("Authorization", "basic cGVyc29uOnk=")] None].

(** The exception is not the exit with code 77. *)
Definition not_exit_77 (e : exn) (w : world) : Prop := e <> SystemExit 77.

Definition is_answered_probe (url : fstring) (ev : event) : bool :=
  match ev with
  | EHttp (Request GET u [] None) (Some _) =>
      match u, url with
      | [Lit a], [Lit b] => String.eqb a b
      | _, _ => false
      end
  | _ => false
  end.

(** The gateway rejects the creation of the user; everything else works. *)
Definition users_rejected_env : env :=
  Env (fun _ _ => true)
      (fun tr r => if String.eqb (Sim.url_head r) "http://localhost:5001/users"
                   then Some (Response false None)
                   else Sim.services JNull tr r)
      Sim.cwd_join Sim.checks_fetch Sim.checks_payment.

(** * Basic facts about worlds and logs *)

Lemma log_nil (w : world) : log [] w = w.
Proof. destruct w; unfold log, set_trace; simpl. by rewrite app_nil_r. Qed.

Lemma log_log (evs1 evs2 : list event) (w : world) :
  log evs2 (log evs1 w) = log (evs1 ++ evs2) w.
Proof. unfold log, set_trace; simpl. by rewrite app_assoc. Qed.

Lemma log_cons (ev : event) (evs : list event) (w : world) :
  log (ev :: evs) w = log evs (log [ev] w).
Proof. by rewrite log_log. Qed.

Lemma set_ports_same (w : world) : set_ports (w_ports w) w = w.
Proof. by destruct w. Qed.

Lemma bind_release (port : Z) (X : gset Z) :
  port ∉ X -> ({[port]} ∪ X) ∖ {[port]} = X.
Proof.
  intros Hnotin. apply set_eq. intros x.
  rewrite elem_of_difference, elem_of_union, elem_of_singleton. split.
  - by intros [[Heq|Hin] Hne].
  - intros Hin. split; [by right|]. by intros ->.
Qed.

Lemma port_free_spec (w : world) (port : Z) :
  port_free w port = true <-> 0 <= port <= 65535 /\ port ∉ w_ports w.
Proof.
  unfold port_free. rewrite andb_true_iff, negb_true_iff.
  rewrite bool_decide_eq_true, bool_decide_eq_false. tauto.
Qed.

(** * The port availability checker *)

Lemma checkPort_free (port : Z) (w : world) :
  port_free w port = true ->
  util.checkPort port w = (Ok tt, log [EBind port true; EClose port] w).
Proof.
  intros Hfree. apply port_free_spec in Hfree as [Hrange Hnotin].
  unfold util.checkPort, try_except, bind, socket_bind, socket_close.
  rewrite (bool_decide_eq_true_2 _ Hrange), (bool_decide_eq_false_2 _ Hnotin).
  simpl. f_equal.
  unfold log, set_trace, set_ports; simpl.
  rewrite (bind_release _ _ Hnotin), <- app_assoc. by destruct w.
Qed.

Lemma checkPort_busy (port : Z) (w : world) :
  port_free w port = false ->
  exists e,
    util.checkPort port w
    = (Raise (SystemExit 77),
       log [EBind port false;
            EPrint ("Port " +:+ pretty port +:+ " is not available");
            EPrint ("<class '" +:+ exn_class e +:+ "'>")] w).
Proof.
  intros Hbusy.
  unfold util.checkPort, try_except, bind, socket_bind, port_free in *.
  destruct (bool_decide (0 <= port <= 65535)); simpl in *.
  - apply negb_false_iff in Hbusy. rewrite Hbusy.
    exists OSError. unfold print, emit, exit, raise. by rewrite !log_log.
  - exists OverflowError. unfold print, emit, exit, raise. by rewrite !log_log.
Qed.

Lemma socket_bind_in_use (port : Z) (w : world) :
  0 <= port <= 65535 -> port ∈ w_ports w ->
  socket_bind port w = (Raise OSError, log [EBind port false] w).
Proof.
  intros Hrange Hin. unfold socket_bind.
  by rewrite (bool_decide_eq_true_2 _ Hrange), (bool_decide_eq_true_2 _ Hin).
Qed.

Lemma socket_bind_out_of_range (port : Z) (w : world) :
  ~ 0 <= port <= 65535 ->
  socket_bind port w = (Raise OverflowError, log [EBind port false] w).
Proof.
  intros Hrange. unfold socket_bind.
  by rewrite (bool_decide_eq_false_2 _ Hrange).
Qed.

(** Whatever the bind raises is what the handler prints the class of. *)
Lemma checkPort_bind_raises (port : Z) (w w1 : world) (e : exn) :
  socket_bind port w = (Raise e, w1) ->
  util.checkPort port w
  = (Raise (SystemExit 77),
     log [EPrint ("Port " +:+ pretty port +:+ " is not available");
          EPrint ("<class '" +:+ exn_class e +:+ "'>")] w1).
Proof.
  intros Hbind. unfold util.checkPort, try_except, bind. rewrite Hbind.
  unfold print, emit, exit, raise. by rewrite !log_log.
Qed.

Lemma port_free_false (w : world) (port : Z) :
  port_free w port = false ->
  (0 <= port <= 65535 /\ port ∈ w_ports w) \/ ~ 0 <= port <= 65535.
Proof.
  unfold port_free. intros Hbusy.
  destruct (decide (0 <= port <= 65535)) as [Hrange|Hrange]; [left|by right].
  rewrite (bool_decide_eq_true_2 _ Hrange) in Hbusy. simpl in Hbusy.
  apply negb_false_iff, bool_decide_eq_true in Hbusy. done.
Qed.

(** C9: on a free port [checkPort] binds, releases and returns, leaving the
    world as it was but for the log, so the port is still free and a second
    [checkPort] in a row succeeds too; on a bind failure it performs that
    single bind attempt, prints the message and the class of the exception
    the bind raised, and exits with code 77: the class is [OSError] when the
    port is in use and [OverflowError] when the number is no port number. *)
Theorem checkPort_idempotent_or_exit_77 (port : Z) (w : world) :
  (port_free w port = true ->
     util.checkPort port w = (Ok tt, log [EBind port true; EClose port] w)
     /\ port_free (snd (util.checkPort port w)) port = true
     /\ (util.checkPort port ;; util.checkPort port) w
        = (Ok tt, log [EBind port true; EClose port;
                       EBind port true; EClose port] w))
  /\ (port_free w port = false ->
        exit_status (fst (util.checkPort port w)) = 77
        /\ (0 <= port <= 65535 ->
              socket_bind port w = (Raise OSError, log [EBind port false] w)
              /\ util.checkPort port w
                 = (Raise (SystemExit 77),
                    log [EBind port false;
                         EPrint ("Port " +:+ pretty port +:+ " is not available");
                         EPrint "<class 'OSError'>"] w))
        /\ (~ 0 <= port <= 65535 ->
              socket_bind port w = (Raise OverflowError, log [EBind port false] w)
              /\ util.checkPort port w
                 = (Raise (SystemExit 77),
                    log [EBind port false;
                         EPrint ("Port " +:+ pretty port +:+ " is not available");
                         EPrint "<class 'OverflowError'>"] w)))
  /\ (forall (e : exn) (w1 : world),
        socket_bind port w = (Raise e, w1) ->
        util.checkPort port w
        = (Raise (SystemExit 77),
           log [EPrint ("Port " +:+ pretty port +:+ " is not available");
                EPrint ("<class '" +:+ exn_class e +:+ "'>")] w1)).
Proof.
  split; [|split].
  - intros Hfree.
    assert (Hfree' : port_free (log [EBind port true; EClose port] w) port = true)
      by exact Hfree.
    split; [by apply checkPort_free|].
    split; [by rewrite checkPort_free|].
    unfold bind. rewrite (checkPort_free port w Hfree).
    rewrite (checkPort_free _ _ Hfree'). by rewrite log_log.
  - intros Hbusy. split; [|split].
    + destruct (port_free_false w port Hbusy) as [[Hrange Hin]|Hrange].
      * by rewrite (checkPort_bind_raises _ _ _ _ (socket_bind_in_use _ _ Hrange Hin)).
      * by rewrite (checkPort_bind_raises _ _ _ _ (socket_bind_out_of_range _ _ Hrange)).
    + intros Hrange.
      destruct (port_free_false w port Hbusy) as [[_ Hin]|Hno]; [|done].
      split; [by apply socket_bind_in_use|].
      rewrite (checkPort_bind_raises _ _ _ _ (socket_bind_in_use _ _ Hrange Hin)).
      by rewrite log_log.
    + intros Hrange.
      split; [by apply socket_bind_out_of_range|].
      rewrite (checkPort_bind_raises _ _ _ _ (socket_bind_out_of_range _ _ Hrange)).
      by rewrite log_log.
  - intros e w1. apply checkPort_bind_raises.
Qed.

Lemma checkPort_idempotent_or_exit_77_witness :
  (util.checkPort 5000 ;; util.checkPort 5000)
    (Sim.initial_world (Sim.good_env JNull) ∅)
  = (Ok tt, log [EBind 5000 true; EClose 5000; EBind 5000 true; EClose 5000]
              (Sim.initial_world (Sim.good_env JNull) ∅))
  /\ util.checkPort 5000 (Sim.initial_world (Sim.good_env JNull) {[5000]})
     = (Raise (SystemExit 77),
        log [EBind 5000 false;
             EPrint ("Port " +:+ pretty 5000 +:+ " is not available");
             EPrint "<class 'OSError'>"]
          (Sim.initial_world (Sim.good_env JNull) {[5000]}))
  /\ util.checkPort 70000 (Sim.initial_world (Sim.good_env JNull) ∅)
     = (Raise (SystemExit 77),
        log [EBind 70000 false;
             EPrint ("Port " +:+ pretty 70000 +:+ " is not available");
             EPrint "<class 'OverflowError'>"]
          (Sim.initial_world (Sim.good_env JNull) ∅)).
Proof.
  split; [|split].
  - apply (proj1 (checkPort_idempotent_or_exit_77 5000 _)). reflexivity.
  - assert (Hbusy : port_free (Sim.initial_world (Sim.good_env JNull) {[5000]})
                      5000 = false) by reflexivity.
    assert (Hrange : 0 <= 5000 <= 65535) by lia.
    exact (proj2 (proj1 (proj2 (proj1 (proj2
             (checkPort_idempotent_or_exit_77 5000 _)) Hbusy)) Hrange)).
  - assert (Hbusy : port_free (Sim.initial_world (Sim.good_env JNull) ∅)
                      70000 = false) by reflexivity.
    assert (Hrange : ~ 0 <= 70000 <= 65535) by lia.
    exact (proj2 (proj2 (proj2 (proj1 (proj2
             (checkPort_idempotent_or_exit_77 70000 _)) Hbusy)) Hrange)).
Defined.

(** * The JSON structural checkers *)

Lemma check_field_absent (name : string) (nested : list checker)
    (o : gmap string json) (w : world) :
  o !! name = None ->
  util.check (CheckJsonField name nested) (JObj o) w
  = (Raise (SystemExit 1),
     log [EPrint ("'" +:+ name +:+ "' not found in the JSON.")] w).
Proof.
  intros Habsent. simpl. unfold bind, py_in, ret.
  rewrite bool_decide_eq_false_2; [reflexivity|].
  rewrite Habsent. by intros [v Hv].
Qed.

Lemma check_field_nested (name : string) (c : checker) (nested : list checker)
    (o : gmap string json) (w : world) :
  is_Some (o !! name) ->
  util.check (CheckJsonField name (c :: nested)) (JObj o) w
  = (Raise (AttributeError "nested_check"), w).
Proof.
  intros Hpresent. simpl. unfold bind, py_in, ret.
  by rewrite bool_decide_eq_true_2.
Qed.

(** C2, as the code has it: on an object that contains the field, a
    non-empty list of nested checks makes [CheckJsonField.check] raise
    [AttributeError] at the first nested check, whatever the checks and the
    field's value are, and no nested check is applied; when the field is
    absent it prints the diagnostic naming the field and exits with code 1. *)
Theorem CheckJsonField_check_nested_raises (name : string) (c : checker)
    (nested : list checker) (o : gmap string json) (w : world) :
  (is_Some (o !! name) ->
     util.check (CheckJsonField name (c :: nested)) (JObj o) w
     = (Raise (AttributeError "nested_check"), w))
  /\ (o !! name = None ->
        util.check (CheckJsonField name (c :: nested)) (JObj o) w
        = (Raise (SystemExit 1),
           log [EPrint ("'" +:+ name +:+ "' not found in the JSON.")] w)).
Proof.
  split; [apply check_field_nested | apply check_field_absent].
Qed.

Lemma CheckJsonField_check_nested_raises_witness :
  is_Some ((<["a" := obj [("b", JNum 1)]]> ∅ : gmap string json) !! "a")
  /\ util.check (CheckJsonField "a" [CheckJsonField "b" []])
       (obj [("a", obj [("b", JNum 1)])])
       (Sim.initial_world (Sim.good_env JNull) ∅)
     = (Raise (AttributeError "nested_check"),
        Sim.initial_world (Sim.good_env JNull) ∅).
Proof.
  split.
  - by eexists.
  - apply (proj1 (CheckJsonField_check_nested_raises "a" (CheckJsonField "b" []) []
                    (<["a" := obj [("b", JNum 1)]]> ∅) _)).
    by eexists.
Defined.

(** The same input under the behaviour the spec describes: the nested check
    is applied to the field's value and passes. *)
Example check_as_specified_passes :
  check_as_specified (CheckJsonField "a" [CheckJsonField "b" []])
    (obj [("a", obj [("b", JNum 1)])])
    (Sim.initial_world (Sim.good_env JNull) ∅)
  = (Ok tt, Sim.initial_world (Sim.good_env JNull) ∅).
Proof. reflexivity. Qed.

(** Without nested checks the code and the spec's description agree on
    objects. *)
Lemma check_field_leaf (name : string) (o : gmap string json) (w : world) :
  util.check (CheckJsonField name []) (JObj o) w
  = check_as_specified (CheckJsonField name []) (JObj o) w.
Proof.
  simpl. unfold bind, py_in, ret.
  by destruct (bool_decide (is_Some (o !! name))).
Qed.

(** * The scenario, statement by statement *)

Section Steps.

Import test_ebics.

Lemma http_answer (r : request) (resp : response) (w : world) :
  env_http (w_env w) (w_trace w) r = Some resp ->
  http r w = (Ok resp, log [EHttp r (Some resp)] w).
Proof. intros Hresp. unfold http. by rewrite Hresp. Qed.

Lemma http_no_answer (r : request) (w : world) :
  env_http (w_env w) (w_trace w) r = None ->
  http r w = (Raise ConnectionError, log [EHttp r None] w).
Proof. intros Hresp. unfold http. by rewrite Hresp. Qed.

Lemma count_transactions_list (w : world) (resp : response)
    (o : gmap string json) (l : list json) :
  env_http (w_env w) (w_trace w) transactions_request = Some resp ->
  resp_ok resp = true ->
  resp_json resp = Some (JObj o) ->
  o !! "transactions" = Some (JArr l) ->
  count_transactions w
  = (Ok (length l), log [EHttp transactions_request (Some resp)] w).
Proof.
  intros Hresp Hok Hjson Hfield. unfold count_transactions, bind.
  rewrite (http_answer _ _ _ Hresp). unfold util.assertResponse.
  rewrite Hok. unfold ret, resp_json_m. rewrite Hjson. simpl.
  by rewrite Hfield.
Qed.

Lemma count_transactions_no_field (w : world) (resp : response)
    (o : gmap string json) :
  env_http (w_env w) (w_trace w) transactions_request = Some resp ->
  resp_ok resp = true ->
  resp_json resp = Some (JObj o) ->
  o !! "transactions" = None ->
  count_transactions w
  = (Raise (TypeError "object has no len()"),
     log [EHttp transactions_request (Some resp)] w).
Proof.
  intros Hresp Hok Hjson Hfield. unfold count_transactions, bind.
  rewrite (http_answer _ _ _ Hresp). unfold util.assertResponse.
  rewrite Hok. unfold ret, resp_json_m. rewrite Hjson. simpl.
  by rewrite Hfield.
Qed.

Lemma step_4_count (w : world) :
  step_4 w
  = (n <- count_transactions ;;
     if negb (bool_decide (n = 0%nat))
     then fail "unexpected number of transactions" else ret tt) w.
Proof.
  unfold step_4, count_transactions, bind.
  destruct (http transactions_request w) as [[r|e] w1]; [|done].
  destruct (util.assertResponse r w1) as [[resp|e] w2]; [|done].
  destruct (resp_json_m resp w2) as [[j|e] w3]; [|done].
  by destruct (py_get j "transactions" w3) as [[t|e] w4].
Qed.

Lemma step_6_count_count (w : world) :
  step_6_count w
  = (n <- count_transactions ;;
     if negb (bool_decide (n = 1%nat))
     then fail "Unexpected number of transactions; should be 1" else ret tt) w.
Proof.
  unfold step_6_count, count_transactions, bind.
  destruct (http transactions_request w) as [[r|e] w1]; [|done].
  destruct (util.assertResponse r w1) as [[resp|e] w2]; [|done].
  destruct (resp_json_m resp w2) as [[j|e] w3]; [|done].
  by destruct (py_get j "transactions" w3) as [[t|e] w4].
Qed.

(** C5: in the pre-payment history step, when the GET of the transaction
    list succeeds with a list under "transactions", the script goes on to
    the payment steps if the list is empty, and for every other length it
    prints "unexpected number of transactions" and exits with code 1, with
    no later effect. *)
Theorem pre_payment_history_empty_or_fatal (w : world) (resp : response)
    (o : gmap string json) (l : list json) :
  env_http (w_env w) (w_trace w) transactions_request = Some resp ->
  resp_ok resp = true ->
  resp_json resp = Some (JObj o) ->
  o !! "transactions" = Some (JArr l) ->
  (length l = 0%nat ->
     from_step_4 w
     = from_step_5a (log [EHttp transactions_request (Some resp)] w))
  /\ (length l <> 0%nat ->
        from_step_4 w
        = (Raise (SystemExit 1),
           log [EHttp transactions_request (Some resp);
                EPrint "unexpected number of transactions"] w)
        /\ exit_status (fst (from_step_4 w)) = 1).
Proof.
  intros Hresp Hok Hjson Hfield.
  assert (Hrun : from_step_4 w
                 = (_ <- (if negb (bool_decide (length l = 0%nat))
                          then fail "unexpected number of transactions"
                          else ret tt) ;; from_step_5a)
                     (log [EHttp transactions_request (Some resp)] w)).
  { unfold from_step_4, bind. rewrite step_4_count. unfold bind.
    by rewrite (count_transactions_list w resp o l Hresp Hok Hjson Hfield). }
  split.
  - intros Hlen. rewrite Hrun, Hlen. reflexivity.
  - intros Hlen. rewrite Hrun, (bool_decide_eq_false_2 _ Hlen).
    unfold bind, fail, print, emit, exit, raise; simpl.
    by rewrite log_log.
Qed.

Lemma pre_payment_history_empty_or_fatal_witness :
  let w := Sim.initial_world (Sim.good_env JNull) ∅ in
  let resp := Response true (Some (obj [("transactions", JArr [])])) in
  env_http (w_env w) (w_trace w) transactions_request = Some resp
  /\ from_step_4 w = from_step_5a (log [EHttp transactions_request (Some resp)] w).
Proof.
  split; [reflexivity|].
  apply (proj1 (pre_payment_history_empty_or_fatal
                  (Sim.initial_world (Sim.good_env JNull) ∅)
                  (Response true (Some (obj [("transactions", JArr [])])))
                  (list_to_map [("transactions", JArr [])]) []
                  eq_refl eq_refl eq_refl eq_refl)).
  reflexivity.
Defined.

(** C6: in the post-payment history step the script re-fetches (the body
    having passed the checker) and GETs the transaction list; when the list
    under "transactions" has exactly one entry the script prints
    "Test passed!" and ends, exit status 0; for every other length it prints
    "Unexpected number of transactions; should be 1" and exits with code 1. *)
Theorem post_payment_history_one_or_fatal (w : world) (resp0 resp : response)
    (o : gmap string json) (l : list json) :
  util.check (env_checkFetchTransactions (w_env w)) fetch_body w = (Ok tt, w) ->
  env_http (w_env w) (w_trace w) fetch_request = Some resp0 ->
  resp_ok resp0 = true ->
  env_http (w_env w) (w_trace w ++ [EHttp fetch_request (Some resp0)])
    transactions_request = Some resp ->
  resp_ok resp = true ->
  resp_json resp = Some (JObj o) ->
  o !! "transactions" = Some (JArr l) ->
  (length l = 1%nat ->
     from_step_6 w
     = (Ok tt, log [EHttp fetch_request (Some resp0);
                    EHttp transactions_request (Some resp);
                    EPrint "Test passed!"] w)
     /\ exit_status (fst (from_step_6 w)) = 0)
  /\ (length l <> 1%nat ->
        from_step_6 w
        = (Raise (SystemExit 1),
           log [EHttp fetch_request (Some resp0);
                EHttp transactions_request (Some resp);
                EPrint "Unexpected number of transactions; should be 1"] w)
        /\ exit_status (fst (from_step_6 w)) = 1).
Proof.
  intros Hcheck Hpost Hok0 Hget Hok Hjson Hfield.
  assert (Hfetch : step_6_fetch w = (Ok tt, log [EHttp fetch_request (Some resp0)] w)).
  { unfold step_6_fetch, json_checks.checkFetchTransactions, bind.
    rewrite Hcheck. unfold ret, post.
    change (Request POST [Lit (account_url "/fetch-transactions")] user_headers
              (Some fetch_body)) with fetch_request.
    rewrite (http_answer _ _ _ Hpost). unfold util.assertResponse.
    by rewrite Hok0. }
  assert (Hrun : from_step_6 w
                 = (_ <- (if negb (bool_decide (length l = 1%nat))
                          then fail "Unexpected number of transactions; should be 1"
                          else ret tt) ;; print "Test passed!")
                     (log [EHttp fetch_request (Some resp0);
                           EHttp transactions_request (Some resp)] w)).
  { unfold from_step_6, bind. rewrite Hfetch.
    unfold from_step_6_count, bind. rewrite step_6_count_count. unfold bind.
    rewrite (count_transactions_list (log [EHttp fetch_request (Some resp0)] w)
               resp o l Hget Hok Hjson Hfield).
    by rewrite log_log. }
  split; intros Hlen; rewrite Hrun.
  - rewrite Hlen. unfold bind, ret, print, emit; simpl. by rewrite log_log.
  - rewrite (bool_decide_eq_false_2 _ Hlen).
    unfold bind, fail, print, emit, exit, raise; simpl. by rewrite log_log.
Qed.

Lemma post_payment_history_one_or_fatal_witness :
  let w := log [EHttp (submit_request (JStr "u1")) (Some (Response true None))]
             (Sim.initial_world (Sim.good_env JNull) ∅) in
  util.check (env_checkFetchTransactions (w_env w)) fetch_body w = (Ok tt, w)
  /\ exit_status (fst (from_step_6 w)) = 0.
Proof.
  split; [reflexivity|].
  apply (proj1 (post_payment_history_one_or_fatal
                  (log [EHttp (submit_request (JStr "u1")) (Some (Response true None))]
                     (Sim.initial_world (Sim.good_env JNull) ∅))
                  (Response true (Some (obj [("subject", JStr "integration test")])))
                  (Response true
                     (Some (obj [("transactions",
                                  JArr [obj [("amount", JStr "EUR:1")]])])))
                  (list_to_map [("transactions",
                                 JArr [obj [("amount", JStr "EUR:1")]])])
                  [obj [("amount", JStr "EUR:1")]]
                  eq_refl eq_refl eq_refl eq_refl eq_refl eq_refl eq_refl)).
  reflexivity.
Defined.

(** C10: when the transaction list comes as an object without a
    "transactions" field, [.get] gives [None] and [len(None)] raises
    [TypeError] in both count checks: nothing is printed by the script, the
    exception is uncaught and the exit status is that of a traceback, not
    the count-mismatch diagnostic followed by [exit(1)]. *)
Theorem transaction_count_needs_field (w : world) (resp : response)
    (o : gmap string json) :
  env_http (w_env w) (w_trace w) transactions_request = Some resp ->
  resp_ok resp = true ->
  resp_json resp = Some (JObj o) ->
  o !! "transactions" = None ->
  let w1 := log [EHttp transactions_request (Some resp)] w in
  from_step_4 w = (Raise (TypeError "object has no len()"), w1)
  /\ from_step_6_count w = (Raise (TypeError "object has no len()"), w1)
  /\ python from_step_4 w
     = (1, snd (run_hooks (rev (w_hooks w))
                  (log [ETraceback (TypeError "object has no len()")] w1)))
  /\ python from_step_6_count w
     = (1, snd (run_hooks (rev (w_hooks w))
                  (log [ETraceback (TypeError "object has no len()")] w1))).
Proof.
  intros Hresp Hok Hjson Hfield w1.
  assert (H4 : from_step_4 w = (Raise (TypeError "object has no len()"), w1)).
  { unfold from_step_4, bind. rewrite step_4_count. unfold bind.
    by rewrite (count_transactions_no_field w resp o Hresp Hok Hjson Hfield). }
  assert (H6 : from_step_6_count w = (Raise (TypeError "object has no len()"), w1)).
  { unfold from_step_6_count, bind. rewrite step_6_count_count. unfold bind.
    by rewrite (count_transactions_no_field w resp o Hresp Hok Hjson Hfield). }
  unfold python. rewrite H4, H6. done.
Qed.

Lemma transaction_count_needs_field_witness :
  let w := Sim.initial_world Sim.no_field_env ∅ in
  let resp := Response true (Some (obj [("uuid", JStr "u1")])) in
  env_http (w_env w) (w_trace w) transactions_request = Some resp
  /\ from_step_4 w
     = (Raise (TypeError "object has no len()"),
        log [EHttp transactions_request (Some resp)] w).
Proof.
  split; [reflexivity|].
  apply (transaction_count_needs_field
           (Sim.initial_world Sim.no_field_env ∅)
           (Response true (Some (obj [("uuid", JStr "u1")])))
           (list_to_map [("uuid", JStr "u1")])
           eq_refl eq_refl eq_refl eq_refl).
Defined.

(** With the field present and a list under it, both checks end as the spec
    says (C5, C6); the whole run on a service that omits the field ends with
    a traceback and exit status 1. *)
Example run_without_transactions_field :
  let r := python main (Sim.initial_world Sim.no_field_env ∅) in
  fst r = 1
  /\ existsb (is_traceback "TypeError") (w_trace (snd r)) = true
  /\ count_if (is_print "unexpected number of transactions") (w_trace (snd r))
     = 0%nat.
Proof. vm_compute. done. Qed.

(** C3, as the code has it: after the payment-initiation POST succeeded with
    an object as body, the script goes on to the GET and submit steps with
    whatever is under "uuid", the empty string included, unless that value
    is [None]: when the key is absent or null it prints
    "Payment UUID not received" and exits with code 1 before any later
    request. *)
Theorem prepared_payment_uuid_not_None (w : world) (resp : response)
    (o : gmap string json) :
  env_http (w_env w) (w_trace w) payment_request = Some resp ->
  resp_ok resp = true ->
  resp_json resp = Some (JObj o) ->
  let w1 := log [EHttp payment_request (Some resp)] w in
  (o !! "uuid" = None \/ o !! "uuid" = Some JNull ->
     from_step_5a w
     = (Raise (SystemExit 1), log [EPrint "Payment UUID not received"] w1)
     /\ exit_status (fst (from_step_5a w)) = 1)
  /\ (forall uuid, o !! "uuid" = Some uuid -> uuid <> JNull ->
        from_step_5a w = after_prepare uuid w1).
Proof.
  intros Hresp Hok Hjson w1.
  assert (Hrun : from_step_5a w
                 = (_ <- (if is_None (default JNull (o !! "uuid"))
                          then fail "Payment UUID not received" else ret tt) ;;
                    after_prepare (default JNull (o !! "uuid"))) w1).
  { unfold from_step_5a, step_5a, bind.
    rewrite (http_answer _ _ _ Hresp). unfold util.assertResponse.
    rewrite Hok. unfold ret, resp_json_m. rewrite Hjson. simpl.
    fold w1. by destruct (is_None (default JNull (o !! "uuid"))). }
  split.
  - intros Hnone. rewrite Hrun.
    assert (Hd : default JNull (o !! "uuid") = JNull)
      by (destruct Hnone as [-> | ->]; reflexivity).
    rewrite Hd. done.
  - intros uuid Hsome Hne. rewrite Hrun, Hsome. simpl.
    by destruct uuid.
Qed.

Lemma prepared_payment_uuid_not_None_witness :
  let w := Sim.initial_world (Sim.good_env (obj [("uuid", JStr EmptyString)])) ∅ in
  let resp := Response true (Some (obj [("uuid", JStr EmptyString)])) in
  env_http (w_env w) (w_trace w) payment_request = Some resp
  /\ from_step_5a w
     = after_prepare (JStr EmptyString) (log [EHttp payment_request (Some resp)] w).
Proof.
  split; [reflexivity|].
  apply (proj2 (prepared_payment_uuid_not_None
                  (Sim.initial_world (Sim.good_env (obj [("uuid", JStr EmptyString)])) ∅)
                  (Response true (Some (obj [("uuid", JStr EmptyString)])))
                  (list_to_map [("uuid", JStr EmptyString)])
                  eq_refl eq_refl eq_refl) (JStr EmptyString)).
  - reflexivity.
  - discriminate.
Defined.

(** The claim as stated fails on an empty identifier: the run submits the
    payment under the empty identifier and passes. *)
Lemma empty_uuid_is_submitted :
  let r := python main
             (Sim.initial_world (Sim.good_env (obj [("uuid", JStr EmptyString)])) ∅) in
  fst r = 0
  /\ existsb (is_submit_of_str EmptyString) (w_trace (snd r)) = true
  /\ count_if (is_print "Payment UUID not received") (w_trace (snd r)) = 0%nat.
Proof. vm_compute. done. Qed.

End Steps.

(** * Readiness polling *)

Section Poll.

Variables (url : fstring) (d : Z) (last : nat) (on_timeout : M unit).

Lemma rounds_S (k : nat) :
  rounds url d (S k) = [EHttp (probe url) None; ESleep d] ++ rounds url d k.
Proof. reflexivity. Qed.

(** One iteration: a probe that is answered ends the loop. *)
Lemma poll_answered (i : nat) (rest : list nat) (resp : response) (w : world) :
  env_http (w_env w) (w_trace w) (probe url) = Some resp ->
  for_in (poll_body url d last on_timeout) (i :: rest) w
  = (Ok tt, log [EHttp (probe url) (Some resp)] w).
Proof.
  intros Hresp. cbn [for_in]. unfold bind at 1. unfold poll_body at 1.
  unfold try_except, get. unfold bind at 1.
  change (Request GET url [] None) with (probe url).
  by rewrite (http_answer _ _ _ Hresp).
Qed.

(** A failed probe before the last attempt: sleep and go on. *)
Lemma poll_failed (i : nat) (rest : list nat) (w : world) :
  env_http (w_env w) (w_trace w) (probe url) = None ->
  i <> last ->
  for_in (poll_body url d last on_timeout) (i :: rest) w
  = for_in (poll_body url d last on_timeout) rest
      (log [EHttp (probe url) None; ESleep d] w).
Proof.
  intros Hresp Hne. cbn [for_in]. unfold bind at 1. unfold poll_body at 1.
  unfold try_except, get. unfold bind at 1.
  change (Request GET url [] None) with (probe url).
  rewrite (http_no_answer _ _ Hresp), (bool_decide_eq_false_2 _ Hne).
  unfold bind, ret, sleep, emit. by rewrite log_log.
Qed.

(** A failed probe at the last attempt. *)
Lemma poll_failed_last (w : world) :
  env_http (w_env w) (w_trace w) (probe url) = None ->
  for_in (poll_body url d last on_timeout) [last] w
  = (on_timeout ;; sleep d ;; ret tt) (log [EHttp (probe url) None] w).
Proof.
  intros Hresp. cbn [for_in]. unfold bind at 1. unfold poll_body at 1.
  unfold try_except, get. unfold bind at 1.
  change (Request GET url [] None) with (probe url).
  rewrite (http_no_answer _ _ Hresp), (bool_decide_eq_true_2 _ eq_refl).
  unfold bind, ret, sleep, emit.
  by destruct (on_timeout (log [EHttp (probe url) None] w)) as [[[]|e] w1].
Qed.

(** The loop over attempts [a .. last]: either the probe number [k + 1] is
    the first one answered and the loop returns at once, or all are
    unanswered and [on_timeout] runs after the last one. *)
Lemma poll_shape (n a : nat) (w : world) :
  (a + n)%nat = last ->
  (exists k resp,
     (k <= n)%nat
     /\ env_http (w_env w) (w_trace w ++ rounds url d k) (probe url) = Some resp
     /\ for_in (poll_body url d last on_timeout) (seq a (S n)) w
        = (Ok tt, log (rounds url d k ++ [EHttp (probe url) (Some resp)]) w))
  \/ for_in (poll_body url d last on_timeout) (seq a (S n)) w
     = (on_timeout ;; sleep d ;; ret tt)
         (log (rounds url d n ++ [EHttp (probe url) None]) w).
Proof.
  revert a w. induction n as [|n IH]; intros a w Hlast.
  - destruct (env_http (w_env w) (w_trace w) (probe url)) as [resp|] eqn:Hresp.
    + left. exists 0%nat, resp. split; [lia|]. split.
      * simpl. by rewrite app_nil_r.
      * by apply poll_answered.
    + right. replace a with last by lia. by apply poll_failed_last.
  - destruct (env_http (w_env w) (w_trace w) (probe url)) as [resp|] eqn:Hresp.
    + left. exists 0%nat, resp. split; [lia|]. split.
      * simpl. by rewrite app_nil_r.
      * by apply poll_answered.
    + change (seq a (S (S n))) with (a :: seq (S a) (S n)).
      rewrite (poll_failed _ _ _ Hresp) by lia.
      destruct (IH (S a) (log [EHttp (probe url) None; ESleep d] w))
        as [(k & resp & Hk & Hans & Hrun) | Hrun]; [lia| |].
      * left. exists (S k), resp. split; [lia|]. split.
        -- rewrite rounds_S, app_assoc. exact Hans.
        -- rewrite Hrun, log_log, rounds_S. by rewrite <- app_assoc.
      * right. rewrite Hrun, log_log, rounds_S. by rewrite <- app_assoc.
Qed.

End Poll.

Lemma startSandbox_loop_poll :
  util.startSandbox_loop
  = for_in (poll_body util.SANDBOX_ROOT 2 9
              (so <- (nexus <- unbound_name "nexus" ;; communicate nexus) ;;
               print "Sandbox timed out" ;;
               out <- decode (fst so) ;;
               err <- decode (snd so) ;;
               print (out +:+ util.newline +:+ err) ;;
               exit 77))
      (seq 0 10).
Proof. reflexivity. Qed.

Lemma startNexus_loop_poll (nexus : proc) :
  util.startNexus_loop nexus
  = for_in (poll_body util.NEXUS_ROOT 1 79
              (terminate nexus ;;
               print "Nexus timed out" ;;
               exit 77))
      (seq 0 80).
Proof. reflexivity. Qed.

Lemma sandbox_on_timeout (w : world) :
  ((so <- (nexus <- unbound_name "nexus" ;; communicate nexus) ;;
    print "Sandbox timed out" ;;
    out <- decode (fst so) ;;
    err <- decode (snd so) ;;
    print (out +:+ util.newline +:+ err) ;;
    (exit 77 : M unit)) ;;
   sleep 2 ;;
   ret tt) w
  = (Raise (NameError "nexus"), w).
Proof. reflexivity. Qed.

Lemma nexus_on_timeout (nexus : proc) (w : world) :
  ((terminate nexus ;;
    print "Nexus timed out" ;;
    (exit 77 : M unit)) ;;
   sleep 1 ;;
   ret tt) w
  = (Raise (SystemExit 77),
     log [EPrint "Nexus timed out"] (snd (terminate nexus w))).
Proof. reflexivity. Qed.

(** The two loops by cases on the first answered probe. *)
Lemma startSandbox_loop_shape (w : world) :
  (exists k resp,
     (k < 10)%nat
     /\ env_http (w_env w) (w_trace w ++ rounds util.SANDBOX_ROOT 2 k)
          (probe util.SANDBOX_ROOT) = Some resp
     /\ util.startSandbox_loop w
        = (Ok tt, log (rounds util.SANDBOX_ROOT 2 k
                       ++ [EHttp (probe util.SANDBOX_ROOT) (Some resp)]) w))
  \/ util.startSandbox_loop w
     = (Raise (NameError "nexus"),
        log (rounds util.SANDBOX_ROOT 2 9
             ++ [EHttp (probe util.SANDBOX_ROOT) None]) w).
Proof.
  rewrite startSandbox_loop_poll.
  match goal with
  | |- context [poll_body _ _ _ ?t] =>
      destruct (poll_shape util.SANDBOX_ROOT 2 9 t 9 0 w eq_refl)
        as [(k & resp & Hk & Hans & Hrun) | Hrun]
  end.
  - left. exists k, resp. split; [lia|]. by split.
  - right. rewrite Hrun. apply sandbox_on_timeout.
Qed.

Lemma startNexus_loop_shape (nexus : proc) (w : world) :
  (exists k resp,
     (k < 80)%nat
     /\ env_http (w_env w) (w_trace w ++ rounds util.NEXUS_ROOT 1 k)
          (probe util.NEXUS_ROOT) = Some resp
     /\ util.startNexus_loop nexus w
        = (Ok tt, log (rounds util.NEXUS_ROOT 1 k
                       ++ [EHttp (probe util.NEXUS_ROOT) (Some resp)]) w))
  \/ util.startNexus_loop nexus w
     = (Raise (SystemExit 77),
        log [EPrint "Nexus timed out"]
          (snd (terminate nexus
                  (log (rounds util.NEXUS_ROOT 1 79
                        ++ [EHttp (probe util.NEXUS_ROOT) None]) w)))).
Proof.
  rewrite startNexus_loop_poll.
  destruct (poll_shape util.NEXUS_ROOT 1 79
              (terminate nexus ;; print "Nexus timed out" ;; exit 77)
              79 0 w eq_refl)
    as [(k & resp & Hk & Hans & Hrun) | Hrun].
  - left. exists k, resp. split; [lia|]. by split.
  - right. rewrite Hrun. apply nexus_on_timeout.
Qed.

(** C8, as the code has it: each polling loop makes at most 10 (sandbox)
    resp. 80 (nexus) probes, sleeping 2 s resp. 1 s after each failed one but
    the last, and returns right after the first answered probe; both loops
    are total functions of the world.  After the last unanswered probe the
    nexus loop terminates the child, prints "Nexus timed out" and exits with
    code 77.  The sandbox loop does not exit there: it raises [NameError] on
    the unbound name [nexus], and it never ends in an exit with any code. *)
Theorem readiness_loops_bounded (w : world) (nexus : proc) :
  ((exists k resp,
      (k < 10)%nat
      /\ util.startSandbox_loop w
         = (Ok tt, log (rounds util.SANDBOX_ROOT 2 k
                        ++ [EHttp (probe util.SANDBOX_ROOT) (Some resp)]) w))
   \/ (util.startSandbox_loop w
       = (Raise (NameError "nexus"),
          log (rounds util.SANDBOX_ROOT 2 9
               ++ [EHttp (probe util.SANDBOX_ROOT) None]) w)))
  /\ ((exists k resp,
         (k < 80)%nat
         /\ util.startNexus_loop nexus w
            = (Ok tt, log (rounds util.NEXUS_ROOT 1 k
                           ++ [EHttp (probe util.NEXUS_ROOT) (Some resp)]) w))
      \/ (util.startNexus_loop nexus w
          = (Raise (SystemExit 77),
             log [EPrint "Nexus timed out"]
               (snd (terminate nexus
                       (log (rounds util.NEXUS_ROOT 1 79
                             ++ [EHttp (probe util.NEXUS_ROOT) None]) w))))))
  /\ (forall code, fst (util.startSandbox_loop w) <> Raise (SystemExit code)).
Proof.
  split; [|split].
  - destruct (startSandbox_loop_shape w) as [(k & resp & Hk & _ & Hrun) | Hrun];
      [left; by exists k, resp | by right].
  - destruct (startNexus_loop_shape nexus w)
      as [(k & resp & Hk & _ & Hrun) | Hrun];
      [left; by exists k, resp | by right].
  - intros code.
    by destruct (startSandbox_loop_shape w)
      as [(k & resp & Hk & _ & ->) | ->].
Qed.

(** C1, as the code has it: when no probe of the sandbox is ever answered,
    the loop of [startSandbox] makes its 10 probes and then raises
    [NameError] on the name [nexus]: "Sandbox timed out" is not printed, no
    child output is printed, and the exit status is 1, not 77. *)
Theorem startSandbox_timeout_raises_NameError (w : world) :
  (forall tr, env_http (w_env w) tr (probe util.SANDBOX_ROOT) = None) ->
  util.startSandbox_loop w
  = (Raise (NameError "nexus"),
     log (rounds util.SANDBOX_ROOT 2 9
          ++ [EHttp (probe util.SANDBOX_ROOT) None]) w)
  /\ exit_status (fst (util.startSandbox_loop w)) = 1
  /\ count_if (is_print "Sandbox timed out")
       (rounds util.SANDBOX_ROOT 2 9 ++ [EHttp (probe util.SANDBOX_ROOT) None])
     = 0%nat.
Proof.
  intros Hdown.
  destruct (startSandbox_loop_shape w) as [(k & resp & _ & Hans & _) | Hrun].
  - rewrite Hdown in Hans. discriminate.
  - rewrite Hrun. done.
Qed.

Lemma startSandbox_timeout_raises_NameError_witness :
  let w := Sim.initial_world Sim.no_sandbox_env ∅ in
  (forall tr, env_http (w_env w) tr (probe util.SANDBOX_ROOT) = None)
  /\ exit_status (fst (util.startSandbox_loop w)) = 1.
Proof.
  split; [reflexivity|].
  apply (startSandbox_timeout_raises_NameError
           (Sim.initial_world Sim.no_sandbox_env ∅)).
  reflexivity.
Defined.

(** The whole run against a sandbox that never answers: exit status 1 after
    a [NameError] traceback, no timeout message, no scenario request. *)
Example run_without_sandbox :
  let r := python test_ebics.main (Sim.initial_world Sim.no_sandbox_env ∅) in
  fst r = 1
  /\ existsb (is_traceback "NameError") (w_trace (snd r)) = true
  /\ count_if (is_print "Sandbox timed out") (w_trace (snd r)) = 0%nat
  /\ count_if is_scenario_request (w_trace (snd r)) = 0%nat.
Proof. vm_compute. done. Qed.

(** The same for the nexus: the sibling loop exits with code 77. *)
Example run_without_nexus :
  let r := python test_ebics.main (Sim.initial_world Sim.no_nexus_env ∅) in
  fst r = 77
  /\ count_if (is_print "Nexus timed out") (w_trace (snd r)) = 1%nat
  /\ count_if is_scenario_request (w_trace (snd r)) = 0%nat.
Proof. vm_compute. done. Qed.

(** * Relating the world before and after a computation *)

Lemma checker_ind_nested (P : checker -> Prop) :
  (forall name nested, Forall P nested -> P (CheckJsonField name nested)) ->
  (forall checks, Forall P checks -> P (CheckJsonTop checks)) ->
  forall c, P c.
Proof.
  intros Hfield Htop. fix IH 1. intros [name nested | checks].
  - apply Hfield. induction nested as [|c l IHl]; constructor; [apply IH | apply IHl].
  - apply Htop. induction checks as [|c l IHl]; constructor; [apply IH | apply IHl].
Qed.

#[local] Instance grows_preorder (P : event -> Prop) : PreOrder (grows P).
Proof.
  split.
  - intros w. exists []. by rewrite app_nil_r.
  - intros w1 w2 w3 (evs1 & H1 & HP1) (evs2 & H2 & HP2).
    exists (evs1 ++ evs2). rewrite H2, H1, app_assoc. split; [done|].
    by apply Forall_app.
Qed.

#[local] Instance quietly_preorder (P : event -> Prop) : PreOrder (quietly P).
Proof.
  split.
  - intros w. split; [reflexivity | done].
  - intros w1 w2 w3 (Hg1 & Hh1 & Hp1) (Hg2 & Hh2 & Hp2).
    split; [by transitivity w2 | by rewrite Hh2, Hp2].
Qed.

Section Combinators.

Context (R : relation world) `{!PreOrder R}.

Lemma steps_ret {A} (a : A) : steps R (ret a).
Proof. intros w. reflexivity. Qed.

Lemma steps_raise {A} (e : exn) : steps R (raise e : M A).
Proof. intros w. reflexivity. Qed.

Lemma steps_bind {A B} (m : M A) (k : A -> M B) :
  steps R m -> (forall a, steps R (k a)) -> steps R (bind m k).
Proof.
  intros Hm Hk w. unfold bind. specialize (Hm w).
  destruct (m w) as [[a|e] w1]; [|exact Hm].
  transitivity w1; [exact Hm | apply Hk].
Qed.

Lemma steps_bind_raise {A B} (e : exn) (k : A -> M B) :
  steps R (bind (raise e) k).
Proof. intros w. reflexivity. Qed.

Lemma steps_try_except {A} (body : M A) (handler : exn -> M A) :
  steps R body -> (forall e, steps R (handler e)) ->
  steps R (try_except body handler).
Proof.
  intros Hb Hh w. unfold try_except. specialize (Hb w).
  destruct (body w) as [[a|e] w1]; [exact Hb|].
  transitivity w1; [exact Hb | apply Hh].
Qed.

Lemma steps_for_in_Forall {X} (body : X -> M loop_ctl) (xs : list X) :
  Forall (fun x => steps R (body x)) xs -> steps R (for_in body xs).
Proof.
  induction 1 as [|x xs Hx _ IH]; [apply steps_ret|].
  cbn [for_in]. apply steps_bind; [exact Hx|].
  intros [|]; [exact IH | apply steps_ret].
Qed.

Lemma steps_for_in {X} (body : X -> M loop_ctl) (xs : list X) :
  (forall x, steps R (body x)) -> steps R (for_in body xs).
Proof. intros Hb. apply (steps_for_in_Forall _). by apply Forall_forall. Qed.

Lemma steps_if {A} (b : bool) (m1 m2 : M A) :
  steps R m1 -> steps R m2 -> steps R (if b then m1 else m2).
Proof. by destruct b. Qed.

(** A computation that first reads the world. *)
Lemma steps_reading {A X} (f : world -> X) (m : X -> M A) :
  (forall x, steps R (m x)) -> steps R (fun w => m (f w) w).
Proof. intros Hm w. apply Hm. Qed.

Lemma steps_run {A} (m : M A) (w : world) (r : result A) (w' : world) :
  steps R m -> m w = (r, w') -> R w w'.
Proof. intros Hm Hrun. specialize (Hm w). by rewrite Hrun in Hm. Qed.

End Combinators.

Lemma steps_weaken (R1 R2 : relation world) {A} (m : M A) :
  (forall w w', R1 w w' -> R2 w w') -> steps R1 m -> steps R2 m.
Proof. intros Hsub Hm w. apply Hsub, Hm. Qed.

Lemma quietly_grows (P : event -> Prop) (w w' : world) :
  quietly P w w' -> grows P w w'.
Proof. by intros [H _]. Qed.

(** ** The primitives that leave hooks and processes alone *)

Section Quiet.

Context (P : event -> Prop).

Lemma quietly_log (evs : list event) (w : world) :
  Forall P evs -> quietly P w (log evs w).
Proof. intros HP. split; [by exists evs | done]. Qed.

Lemma quiet_emit (ev : event) : P ev -> steps (quietly P) (emit ev).
Proof. intros HP w. apply quietly_log. by constructor. Qed.

Lemma quiet_http (r : request) :
  (forall a, P (EHttp r a)) -> steps (quietly P) (http r).
Proof. intros HP w. apply quietly_log. by constructor. Qed.

Lemma quiet_check_call (argv : list string) :
  (forall ok, P (ECheckCall argv ok)) -> steps (quietly P) (check_call argv).
Proof. intros HP w. apply quietly_log. by constructor. Qed.

Lemma quiet_socket_bind (port : Z) :
  (forall ok, P (EBind port ok)) -> steps (quietly P) (socket_bind port).
Proof.
  intros HP w. unfold socket_bind.
  destruct (negb _); [apply quietly_log; by constructor|].
  destruct (bool_decide _); [apply quietly_log; by constructor|].
  split; [|done]. exists [EBind port true]. split; [done | by constructor].
Qed.

Lemma quiet_socket_close (port : Z) :
  P (EClose port) -> steps (quietly P) (socket_close port).
Proof.
  intros HP w. split; [|done].
  exists [EClose port]. split; [done | by constructor].
Qed.

End Quiet.

(** ** The primitives of process supervision *)

Section Supervision.

Context (P : event -> Prop).

Lemma grows_Popen (argv : list string) (out err : string) :
  (forall p, P (EPopen argv out err p)) -> steps (grows P) (Popen argv out err).
Proof.
  intros HP w. exists [EPopen argv out err (length (w_procs w))].
  split; [done | by constructor].
Qed.

Lemma grows_atexit_register (h : hook) :
  P (ERegister h) -> steps (grows P) (atexit_register h).
Proof. intros HP w. exists [ERegister h]. split; [done | by constructor]. Qed.

Lemma grows_terminate (p : proc) :
  P (ETerminate p) -> steps (grows P) (terminate p).
Proof. intros HP w. exists [ETerminate p]. split; [done | by constructor]. Qed.

Lemma grows_wait (p : proc) : P (EWait p) -> steps (grows P) (wait p).
Proof. intros HP w. exists [EWait p]. split; [done | by constructor]. Qed.

End Supervision.

(** ** Operations without effects *)

Section Pure.

Context (R : relation world) `{!PreOrder R}.

Lemma steps_pure {A} (m : M A) : (forall w, snd (m w) = w) -> steps R m.
Proof. intros Hm w. rewrite Hm. reflexivity. Qed.

Lemma steps_py_in (name : string) (j : json) : steps R (py_in name j).
Proof. apply steps_pure. by destruct j. Qed.

Lemma steps_py_get (j : json) (name : string) : steps R (py_get j name).
Proof. apply steps_pure. by destruct j. Qed.

Lemma steps_py_len (j : json) : steps R (py_len j).
Proof. apply steps_pure. by destruct j. Qed.

Lemma steps_decode (b : option string) : steps R (decode b).
Proof. apply steps_pure. by destruct b. Qed.

Lemma steps_resp_json_m (r : response) : steps R (resp_json_m r).
Proof. apply steps_pure. unfold resp_json_m. by destruct (resp_json r). Qed.

Lemma steps_exit {A} (code : Z) : steps R (exit code : M A).
Proof. apply (steps_raise R). Qed.

Lemma steps_unbound_name {A} (name : string) : steps R (unbound_name name : M A).
Proof. apply (steps_raise R). Qed.

End Pure.

Create HintDb steps.

(** Discharges [P ev] for the effect at hand by evaluation. *)
Ltac effect_ok := first [ done | intros; vm_compute; done ].

(** Walks through a computation that leaves hooks and processes alone. *)
Ltac quiet_step :=
  lazymatch goal with
  | |- steps ?R (bind (raise _) _) => apply (steps_bind_raise R)
  | |- steps ?R (bind (unbound_name _) _) => apply (steps_bind_raise R)
  | |- steps ?R (bind _ _) =>
      apply (steps_bind R); [quiet_step | intros ?; quiet_step]
  | |- steps ?R (ret _) => apply (steps_ret R)
  | |- steps ?R (raise _) => apply (steps_raise R)
  | |- steps ?R (exit _) => apply (steps_exit R)
  | |- steps ?R (unbound_name _) => apply (steps_unbound_name R)
  | |- steps ?R (py_in _ _) => apply (steps_py_in R)
  | |- steps ?R (py_get _ _) => apply (steps_py_get R)
  | |- steps ?R (py_len _) => apply (steps_py_len R)
  | |- steps ?R (decode _) => apply (steps_decode R)
  | |- steps ?R (resp_json_m _) => apply (steps_resp_json_m R)
  | |- steps ?R (if _ then _ else _) => apply (steps_if R); quiet_step
  | |- steps ?R (try_except _ _) =>
      apply (steps_try_except R); [quiet_step | intros ?; quiet_step]
  | |- steps ?R (for_in _ _) => apply (steps_for_in R); intros ?; quiet_step
  | |- steps ?R (emit _) => apply quiet_emit; effect_ok
  | |- steps ?R (print _) => apply quiet_emit; effect_ok
  | |- steps ?R (sleep _) => apply quiet_emit; effect_ok
  | |- steps ?R (http _) => apply quiet_http; effect_ok
  | |- steps ?R (get _ _) => apply quiet_http; effect_ok
  | |- steps ?R (post _ _ _) => apply quiet_http; effect_ok
  | |- steps ?R (check_call _) => apply quiet_check_call; effect_ok
  | |- steps ?R (socket_bind _) => apply quiet_socket_bind; effect_ok
  | |- steps ?R (socket_close _) => apply quiet_socket_close; effect_ok
  | |- steps ?R (test_ebics.fail _) => unfold test_ebics.fail; quiet_step
  | |- steps ?R (util.assertResponse _) => unfold util.assertResponse; quiet_step
  | |- steps ?R (util.checkPort _) => unfold util.checkPort; quiet_step
  | |- steps ?R _ => solve [eauto with steps]
  end.

Section QuietHarness.

Context (P : event -> Prop).
Context (P_print : forall s, P (EPrint s)).

Lemma quiet_check (c : checker) (j : json) : steps (quietly P) (util.check c j).
Proof.
  induction c as [name nested _ | checks IH] using checker_ind_nested.
  - cbn [util.check]. quiet_step.
  - cbn [util.check]. apply (steps_for_in_Forall _).
    eapply Forall_impl; [exact IH|]. intros c Hc. cbn beta. quiet_step.
Qed.

Lemma quiet_checkFetchTransactions (j : json) :
  steps (quietly P) (json_checks.checkFetchTransactions j).
Proof.
  unfold json_checks.checkFetchTransactions.
  apply (steps_reading _ (fun w => env_checkFetchTransactions (w_env w))
           (fun c => util.check c j ;; ret j)).
  intros c. apply (steps_bind _); [apply quiet_check | intros ?; quiet_step].
Qed.

Lemma quiet_checkPreparedPaymentElement (j : json) :
  steps (quietly P) (json_checks.checkPreparedPaymentElement j).
Proof.
  unfold json_checks.checkPreparedPaymentElement.
  apply (steps_reading _ (fun w => env_checkPreparedPaymentElement (w_env w))
           (fun c => util.check c j)).
  intros c. apply quiet_check.
Qed.

End QuietHarness.

#[local] Hint Extern 1 (steps (quietly _) (json_checks.checkFetchTransactions _)) =>
  apply quiet_checkFetchTransactions; effect_ok : steps.
#[local] Hint Extern 1 (steps (quietly _) (json_checks.checkPreparedPaymentElement _)) =>
  apply quiet_checkPreparedPaymentElement; effect_ok : steps.

(** Unfolds the script into its statements. *)
Ltac unfold_scenario :=
  unfold test_ebics.scenario, test_ebics.from_step_4, test_ebics.from_step_5a,
    test_ebics.after_prepare, test_ebics.from_step_6,
    test_ebics.from_step_6_count,
    test_ebics.step_0a, test_ebics.step_0b, test_ebics.step_0c,
    test_ebics.step_1a, test_ebics.step_1b, test_ebics.step_2a,
    test_ebics.step_2b, test_ebics.step_tsd, test_ebics.step_2c,
    test_ebics.step_3, test_ebics.step_4, test_ebics.step_5a,
    test_ebics.step_5a_inspect, test_ebics.step_5b, test_ebics.step_6_fetch,
    test_ebics.step_6_count.

(** Walks through a computation that may also launch, register, terminate
    and wait. *)
Ltac grows_step :=
  lazymatch goal with
  | |- steps ?R (bind (raise _) _) => apply (steps_bind_raise R)
  | |- steps ?R (bind (unbound_name _) _) => apply (steps_bind_raise R)
  | |- steps ?R (bind _ _) =>
      apply (steps_bind R); [grows_step | intros ?; grows_step]
  | |- steps ?R (communicate _) => unfold communicate; grows_step
  | |- steps ?R (if _ then _ else _) => apply (steps_if R); grows_step
  | |- steps ?R (try_except _ _) =>
      apply (steps_try_except R); [grows_step | intros ?; grows_step]
  | |- steps ?R (for_in _ _) => apply (steps_for_in R); intros ?; grows_step
  | |- steps (grows _) (Popen _ _ _) => apply grows_Popen; effect_ok
  | |- steps (grows _) (atexit_register _) => apply grows_atexit_register; effect_ok
  | |- steps (grows _) (terminate _) => apply grows_terminate; effect_ok
  | |- steps (grows _) (wait _) => apply grows_wait; effect_ok
  | |- steps (grows ?P) _ =>
      apply (steps_weaken (quietly P)); [apply quietly_grows | quiet_step]
  end.

(** For [startSandbox] and [startNexus], which first read the database
    path: abstracts the path and returns to a [steps] goal. *)
Ltac with_db_path dbname :=
  let w := fresh "w" in
  let db := fresh "db_full_path" in
  intros w; cbv zeta;
  set (db := env_cwd_join (w_env w) dbname); clearbody db; revert w;
  lazymatch goal with
  | |- forall w, ?R w (snd (?m w)) => change (steps R m)
  end.

(** * Authorization headers *)

Lemma scenario_authorized : steps (quietly authorized) test_ebics.scenario.
Proof. unfold_scenario. quiet_step. Qed.

Lemma startSandbox_authorized (dbname : string) :
  steps (grows authorized) (util.startSandbox dbname).
Proof.
  unfold util.startSandbox. with_db_path dbname.
  unfold util.startSandbox_loop. grows_step.
Qed.

Lemma startNexus_authorized (dbname : string) :
  steps (grows authorized) (util.startNexus dbname).
Proof.
  unfold util.startNexus. with_db_path dbname.
  unfold util.startNexus_loop. grows_step.
Qed.

Lemma main_authorized : steps (grows authorized) test_ebics.main.
Proof.
  unfold test_ebics.main.
  apply (steps_bind _); [apply startSandbox_authorized | intros _].
  apply (steps_bind _); [apply startNexus_authorized | intros _].
  apply (steps_weaken (quietly authorized)); [apply quietly_grows|].
  apply scenario_authorized.
Qed.

Lemma run_hooks_authorized (hs : list hook) : steps (grows authorized) (run_hooks hs).
Proof.
  induction hs as [|[name s] hs IH]; cbn [run_hooks].
  - apply (steps_ret _).
  - apply (steps_bind _); [|intros _; exact IH].
    unfold run_hook, util.kill. grows_step.
Qed.

Lemma python_main_authorized (w : world) :
  grows authorized w (snd (python test_ebics.main w)).
Proof.
  unfold python. pose proof (main_authorized w) as Hmain.
  destruct (test_ebics.main w) as [r w1]. cbn [snd] in *.
  set (w2 := match r with
             | Ok _ | Raise (SystemExit _) => w1
             | Raise e => log [ETraceback e] w1
             end).
  assert (H12 : grows authorized w1 w2).
  { subst w2. destruct r as [?|[]]; try reflexivity;
      (eexists [_]; split; [reflexivity | by constructor]). }
  transitivity w1; [exact Hmain|]. transitivity w2; [exact H12|].
  apply run_hooks_authorized.
Qed.

(** C4: in every run, whatever the environment answers, each request sent
    to the admin-authorized endpoint (the gateway's [/users]) carries the
    header [Authorization: basic <base64 of admin:x>], and each request sent
    to a user endpoint (the gateway's other endpoints, the readiness probe
    apart) carries [Authorization: basic <base64 of person:y>]. *)
Theorem requests_carry_basic_authorization (w : world) :
  exists evs,
    w_trace (snd (python test_ebics.main w)) = w_trace w ++ evs
    /\ forall r a, EHttp r a ∈ evs ->
         (endpoint_kind_of r = AdminAuthorized ->
            header "Authorization" (req_headers r)
            = Some ("basic " +:+ b64encode "admin:x"))
         /\ (endpoint_kind_of r = UserEndpoint ->
               header "Authorization" (req_headers r)
               = Some ("basic " +:+ b64encode "person:y")).
Proof.
  destruct (python_main_authorized w) as (evs & Htrace & Hauth).
  exists evs. split; [exact Htrace|].
  intros r a Hin. rewrite Forall_forall in Hauth.
  specialize (Hauth _ Hin). cbn [authorized] in Hauth.
  split; intros Hkind; by rewrite Hkind in Hauth.
Qed.

(** The two header values, and the requests of a passing run: one to the
    admin-authorized endpoint, thirteen to user endpoints. *)
Example authorization_headers :
  test_ebics.ADMIN_AUTHORIZATION_HEADER = "basic YWRtaW46eA=="
  /\ test_ebics.USER_AUTHORIZATION_HEADER = "basic cGVyc29uOnk="
  /\ let tr := w_trace (snd (python test_ebics.main
                  (Sim.initial_world (Sim.good_env (obj [("uuid", JStr "u1")])) ∅))) in
     count_if (is_request_to AdminAuthorized) tr = 1%nat
     /\ count_if (is_request_to UserEndpoint) tr = 13%nat.
Proof. vm_compute. done. Qed.

(** * Teardown of the service instances *)

Lemma filter_unsupervised (evs : list event) :
  Forall unsupervised evs -> List.filter is_supervision evs = [].
Proof.
  induction 1 as [|ev evs Hev _ IH]; [done|].
  cbn [List.filter]. by rewrite Hev.
Qed.

Lemma sup_log_log (evs : list event) (w : world) :
  sup_log (log evs w) = sup_log w ++ List.filter is_supervision evs.
Proof. unfold sup_log, log, set_trace; simpl. apply List.filter_app. Qed.

Lemma rounds_unsupervised (url : fstring) (d : Z) (k : nat) :
  Forall unsupervised (rounds url d k).
Proof. induction k as [|k IH]; [constructor|]. by repeat constructor. Qed.

Lemma view_log (evs : list event) (w : world) :
  Forall unsupervised evs -> view (log evs w) = view w.
Proof.
  intros Hevs. unfold view. rewrite sup_log_log, (filter_unsupervised _ Hevs).
  by rewrite app_nil_r.
Qed.

Lemma quietly_view (w w' : world) :
  quietly unsupervised w w' -> view w' = view w.
Proof.
  intros [(evs & Htrace & Hevs) [Hhooks Hprocs]].
  unfold view, sup_log. rewrite Hhooks, Hprocs, Htrace, List.filter_app.
  by rewrite (filter_unsupervised _ Hevs), app_nil_r.
Qed.

(** A quiet statement followed by the rest: either it raises and the view
    is as before, or the rest runs from a world with the same view. *)
Lemma bind_quiet {A B} (m : M A) (k : A -> M B) (w : world)
    (r : result B) (w' : world) :
  steps (quietly unsupervised) m ->
  bind m k w = (r, w') ->
  (is_Raise r /\ view w' = view w)
  \/ (exists a w1, view w1 = view w /\ k a w1 = (r, w')).
Proof.
  intros Hm Hrun. unfold bind in Hrun. specialize (Hm w).
  destruct (m w) as [[a|e] w1]; cbn [snd] in Hm.
  - right. exists a, w1. split; [by apply quietly_view | exact Hrun].
  - left. injection Hrun as <- <-. split; [exact I | by apply quietly_view].
Qed.

Lemma quiet_run_view {A} (m : M A) (w : world) (r : result A) (w' : world) :
  steps (quietly unsupervised) m -> m w = (r, w') -> view w' = view w.
Proof.
  intros Hm Hrun. apply quietly_view.
  by apply (steps_run _ m w r w' Hm).
Qed.

Lemma scenario_unsupervised : steps (quietly unsupervised) test_ebics.scenario.
Proof. unfold_scenario. quiet_step. Qed.

Lemma startSandbox_loop_unsupervised :
  steps (quietly unsupervised) util.startSandbox_loop.
Proof.
  unfold util.startSandbox_loop.
  apply (steps_for_in _). intros i.
  apply (steps_try_except _); [quiet_step|]. intros _.
  apply (steps_bind _); [|intros ?; quiet_step].
  apply (steps_if _); [|quiet_step].
  apply (steps_bind_raise _).
Qed.

(** Launching a child and registering its hook. *)
Lemma launch_run {B} (argv : list string) (out err name : string)
    (k : proc -> M B) (w : world) :
  (p <- Popen argv out err ;; atexit_register (KillHook name p) ;; k p) w
  = k (length (w_procs w)) (launched argv out err name w).
Proof. reflexivity. Qed.

Lemma launched_view (argv : list string) (out err name : string) (w : world) :
  view (launched argv out err name w)
  = (w_hooks w ++ [KillHook name (length (w_procs w))],
     w_procs w ++ [Running], sup_log w).
Proof.
  unfold view, launched, sup_log; cbn.
  rewrite !List.filter_app; cbn. by rewrite !app_nil_r.
Qed.

Lemma check_call_unsupervised (argv : list string) :
  steps (quietly unsupervised) (check_call argv).
Proof. quiet_step. Qed.

Lemma checkPort_unsupervised (port : Z) :
  steps (quietly unsupervised) (util.checkPort port).
Proof. quiet_step. Qed.

(** [startSandbox]: either it fails before the launch and the view is as
    before, or the sandbox is launched with its hook registered and nothing
    else changed in the view. *)
Lemma startSandbox_view (dbname : string) (w : world) (r : result unit)
    (w' : world) :
  util.startSandbox dbname w = (r, w') ->
  (is_Raise r /\ view w' = view w)
  \/ view w' = (w_hooks w ++ [KillHook "sandbox" (length (w_procs w))],
                w_procs w ++ [Running], sup_log w).
Proof.
  unfold util.startSandbox. cbv zeta.
  generalize (env_cwd_join (w_env w) dbname). intros db Hrun.
  apply bind_quiet in Hrun as [Hraise | (_ & w1 & Hv1 & Hrun)];
    [by left | | apply check_call_unsupervised].
  apply bind_quiet in Hrun as [[Hr Hv] | (_ & w2 & Hv2 & Hrun)];
    [left; split; [done | by rewrite Hv] | | apply check_call_unsupervised].
  apply bind_quiet in Hrun as [[Hr Hv] | (_ & w3 & Hv3 & Hrun)];
    [left; split; [done | by rewrite Hv, Hv2] | | apply checkPort_unsupervised].
  right. rewrite launch_run in Hrun.
  rewrite (quiet_run_view _ _ _ _ startSandbox_loop_unsupervised Hrun).
  rewrite launched_view.
  assert (Hv : view w3 = view w) by (by rewrite Hv3, Hv2).
  injection Hv as -> -> ->. done.
Qed.

Lemma log_hooks (evs : list event) (w : world) : w_hooks (log evs w) = w_hooks w.
Proof. reflexivity. Qed.

Lemma log_procs (evs : list event) (w : world) : w_procs (log evs w) = w_procs w.
Proof. reflexivity. Qed.

Lemma terminate_view (p : proc) (w : world) :
  view (snd (terminate p w))
  = (w_hooks w,
     match w_procs w !! p with
     | Some Running => <[p := Signalled]> (w_procs w)
     | _ => w_procs w
     end,
     sup_log w ++ [ETerminate p]).
Proof. unfold view, sup_log; cbn. by rewrite List.filter_app. Qed.

Lemma terminate_launched (procs : list proc_state) :
  match (procs ++ [Running]) !! length procs with
  | Some Running => <[length procs := Signalled]> (procs ++ [Running])
  | _ => procs ++ [Running]
  end = procs ++ [Signalled].
Proof.
  rewrite lookup_app_r by lia. rewrite Nat.sub_diag. cbn.
  rewrite insert_app_r_alt by lia. by rewrite Nat.sub_diag.
Qed.

(** [startNexus]: as [startSandbox], with one more case: the readiness
    timeout, where the child is terminated directly before [exit(77)]. *)
Lemma startNexus_view (dbname : string) (w : world) (r : result proc)
    (w' : world) :
  util.startNexus dbname w = (r, w') ->
  (is_Raise r /\ view w' = view w)
  \/ view w' = (w_hooks w ++ [KillHook "nexus" (length (w_procs w))],
                w_procs w ++ [Running], sup_log w)
  \/ (r = Raise (SystemExit 77)
      /\ view w' = (w_hooks w ++ [KillHook "nexus" (length (w_procs w))],
                    w_procs w ++ [Signalled],
                    sup_log w ++ [ETerminate (length (w_procs w))])).
Proof.
  unfold util.startNexus. cbv zeta.
  generalize (env_cwd_join (w_env w) dbname). intros db Hrun.
  apply bind_quiet in Hrun as [Hraise | (_ & w1 & Hv1 & Hrun)];
    [by left | | apply check_call_unsupervised].
  apply bind_quiet in Hrun as [[Hr Hv] | (_ & w2 & Hv2 & Hrun)];
    [left; split; [done | by rewrite Hv] | | apply check_call_unsupervised].
  apply bind_quiet in Hrun as [[Hr Hv] | (_ & w3 & Hv3 & Hrun)];
    [left; split; [done | by rewrite Hv, Hv2] | | apply check_call_unsupervised].
  apply bind_quiet in Hrun as [[Hr Hv] | (_ & w4 & Hv4 & Hrun)];
    [left; split; [done | by rewrite Hv, Hv3, Hv2] | | apply checkPort_unsupervised].
  right.
  assert (Hv : view w4 = view w) by (by rewrite Hv4, Hv3, Hv2).
  injection Hv as Hhooks Hprocs Hlog.
  rewrite (launch_run _ _ _ "nexus"
             (fun nexus => util.startNexus_loop nexus ;; ret nexus)) in Hrun.
  unfold bind in Hrun.
  pose proof (launched_view
                ["../gradlew"; "-p"; ".."; "nexus:run"; "--console=plain";
                 "--args=serve --db-name=" +:+ db]
                "nexus-stdout.log" "nexus-stderr.log" "nexus" w4) as Hlaunched.
  rewrite Hhooks, Hprocs, Hlog in Hlaunched.
  set (wl := launched _ _ _ _ w4) in *. rewrite Hprocs in Hrun. clearbody wl.
  destruct (startNexus_loop_shape (length (w_procs w)) wl)
    as [(k & resp & _ & _ & Hloop) | Hloop]; rewrite Hloop in Hrun.
  - left. apply pair_equal_spec in Hrun as [<- <-].
    rewrite view_log; [exact Hlaunched|].
    apply Forall_app. split; [apply rounds_unsupervised | by constructor].
  - right. apply pair_equal_spec in Hrun as [<- <-]. split; [done|].
    rewrite view_log by (by repeat constructor).
    rewrite terminate_view, log_hooks, log_procs, sup_log_log.
    rewrite filter_unsupervised
      by (apply Forall_app; split; [apply rounds_unsupervised | by constructor]).
    injection Hlaunched as -> -> ->.
    by rewrite terminate_launched, app_nil_r.
Qed.

(** The script as a whole, seen from a world without hooks and children. *)
Lemma main_view (w : world) (r : result unit) (w1 : world) :
  view w = ([], [], []) ->
  test_ebics.main w = (r, w1) ->
  view w1 = ([], [], [])
  \/ view w1 = ([KillHook "sandbox" 0%nat], [Running], [])
  \/ view w1 = ([KillHook "sandbox" 0%nat; KillHook "nexus" 1%nat], [Running; Running], [])
  \/ (r = Raise (SystemExit 77)
      /\ view w1 = ([KillHook "sandbox" 0%nat; KillHook "nexus" 1%nat],
                    [Running; Signalled], [ETerminate 1%nat])).
Proof.
  intros Hw Hrun. injection Hw as Hh Hp Hl.
  unfold test_ebics.main, bind in Hrun.
  destruct (util.startSandbox util.startSandbox_dbname w) as [rs ws] eqn:Hs.
  apply startSandbox_view in Hs. rewrite Hh, Hp, Hl in Hs. cbn in Hs.
  destruct rs as [[]|e].
  - destruct Hs as [[[] _] | Hs].
    injection Hs as Hhs Hps Hls.
    destruct (util.startNexus test_ebics.NEXUS_DB ws) as [rn wn] eqn:Hn.
    apply startNexus_view in Hn. rewrite Hhs, Hps, Hls in Hn. cbn in Hn.
    destruct rn as [nexus|e].
    + destruct Hn as [[[] _] | [Hn | [Hn _]]]; [|discriminate].
      right. right. left.
      by rewrite (quiet_run_view _ _ _ _ scenario_unsupervised Hrun).
    + apply pair_equal_spec in Hrun as [Hr Hw1]; subst r w1.
      destruct Hn as [[_ Hn] | [Hn | [He Hn]]].
      * right. left. rewrite Hn. unfold view. by rewrite Hhs, Hps, Hls.
      * right. right. by left.
      * right. right. right. injection He as ->. by split.
  - apply pair_equal_spec in Hrun as [Hr Hw1]; subst r w1.
    destruct Hs as [[_ Hs] | Hs].
    + left. rewrite Hs. unfold view. by rewrite Hh, Hp, Hl.
    + right. by left.
Qed.

Lemma run_hook_view (h : hook) (w : world) :
  view (snd (run_hook h w)) = after_hook (view w) h.
Proof.
  destruct h as [name p]. unfold view, sup_log; cbn.
  rewrite !List.filter_app; cbn. by rewrite !app_nil_r, <- !app_assoc.
Qed.

Lemma run_hooks_view (hs : list hook) (w : world) :
  view (snd (run_hooks hs w)) = after_hooks hs (view w).
Proof.
  revert w. induction hs as [|h hs IH]; intros w; [done|].
  cbn [run_hooks after_hooks fold_left]. unfold bind.
  pose proof (run_hook_view h w) as Hh.
  destruct (run_hook h w) as [[[]|e] w1] eqn:Hrun.
  - rewrite IH. cbn [snd] in Hh. by rewrite Hh.
  - destruct h as [name p]. discriminate Hrun.
Qed.

(** The view at the end of the process, from the view the script leaves. *)
Lemma python_view (script : M unit) (w : world) :
  view (snd (python script w))
  = after_hooks (rev (w_hooks (snd (script w)))) (view (snd (script w))).
Proof.
  unfold python. destruct (script w) as [r w1]. cbn [snd].
  set (w2 := match r with
             | Ok _ | Raise (SystemExit _) => w1
             | Raise e => log [ETraceback e] w1
             end).
  assert (H12 : view w2 = view w1).
  { subst w2. destruct r as [?|[]]; try reflexivity;
      by (apply view_log; repeat constructor). }
  rewrite run_hooks_view, H12. by injection H12 as -> _ _.
Qed.

Lemma count_if_sup_log (f : event -> bool) (w : world) :
  (forall ev, f ev = true -> is_supervision ev = true) ->
  count_if f (w_trace w) = count_if f (sup_log w).
Proof.
  intros Hf. unfold count_if, sup_log.
  induction (w_trace w) as [|ev tr IH]; [done|].
  cbn [List.filter]. destruct (is_supervision ev) eqn:Hsup.
  - cbn [List.filter]. destruct (f ev); cbn [length]; by rewrite IH.
  - destruct (f ev) eqn:Hfev; [|exact IH].
    apply Hf in Hfev. congruence.
Qed.

Lemma kill_reaped (name : string) (p : proc) (w : world) :
  w_procs w !! p = Some Reaped ->
  util.kill name p w
  = (Ok tt, log [EPrint ("terminating " +:+ name +:+ " ...");
                 ETerminate p; EWait p; EPrint "terminated!"] w).
Proof.
  intros Hdead. unfold util.kill, bind, print, emit, terminate, wait. cbn.
  rewrite Hdead. f_equal. unfold log, set_trace, set_procs; cbn.
  rewrite <- !app_assoc. cbn [app]. f_equal.
  exact (list_insert_id _ _ _ Hdead).
Qed.

(** The view at the end of a run of the script. *)
Lemma python_main_view (e : env) (ports : gset Z) :
  let r := python test_ebics.main (Sim.initial_world e ports) in
  view (snd r) = ([], [], [])
  \/ view (snd r)
     = ([KillHook "sandbox" 0%nat], [Reaped],
        [ECallHook (KillHook "sandbox" 0%nat); ETerminate 0%nat; EWait 0%nat])
  \/ view (snd r)
     = ([KillHook "sandbox" 0%nat; KillHook "nexus" 1%nat], [Reaped; Reaped],
        [ECallHook (KillHook "nexus" 1%nat); ETerminate 1%nat; EWait 1%nat;
         ECallHook (KillHook "sandbox" 0%nat); ETerminate 0%nat; EWait 0%nat])
  \/ (fst r = 77
      /\ view (snd r)
         = ([KillHook "sandbox" 0%nat; KillHook "nexus" 1%nat], [Reaped; Reaped],
            [ETerminate 1%nat;
             ECallHook (KillHook "nexus" 1%nat); ETerminate 1%nat; EWait 1%nat;
             ECallHook (KillHook "sandbox" 0%nat); ETerminate 0%nat; EWait 0%nat])).
Proof.
  intros r. subst r. rewrite python_view.
  assert (Hfst : fst (python test_ebics.main (Sim.initial_world e ports))
                 = exit_status (fst (test_ebics.main (Sim.initial_world e ports)))).
  { unfold python. by destruct (test_ebics.main _). }
  rewrite Hfst.
  destruct (test_ebics.main (Sim.initial_world e ports)) as [r w1] eqn:Hrun.
  apply main_view in Hrun; [|reflexivity]. cbn [fst snd].
  destruct Hrun as [Hv | [Hv | [Hv | [-> Hv]]]];
    rewrite Hv; injection Hv as -> _ _; cbn; tauto.
Qed.

(** C7, as the code has it: in every run and for every child that was
    launched, the registered exit hook is called exactly once and calls
    [wait] on the child once, so the child ends up reaped; [terminate] is
    called on it once by the hook, and a second time, before the hook and
    not by it, only for the nexus on its readiness timeout (exit code 77).
    [kill] on a child that is already reaped leaves the process table as it
    is. *)
Theorem exit_hook_runs_once_per_instance (e : env) (ports : gset Z)
    (p : proc) (name : string) :
  let r := python test_ebics.main (Sim.initial_world e ports) in
  (p < length (w_procs (snd r)))%nat ->
  count_if (is_hook_call p) (w_trace (snd r)) = 1%nat
  /\ count_if (is_wait p) (w_trace (snd r)) = 1%nat
  /\ (count_if (is_terminate p) (w_trace (snd r)) = 1%nat
      \/ (count_if (is_terminate p) (w_trace (snd r)) = 2%nat
          /\ p = 1%nat /\ fst r = 77))
  /\ w_procs (snd r) !! p = Some Reaped
  /\ w_procs (snd (util.kill name p (snd r))) = w_procs (snd r).
Proof.
  intros r Hp.
  assert (Hcall : forall ev, is_hook_call p ev = true -> is_supervision ev = true)
    by (by intros []).
  assert (Hwait : forall ev, is_wait p ev = true -> is_supervision ev = true)
    by (by intros []).
  assert (Hterm : forall ev, is_terminate p ev = true -> is_supervision ev = true)
    by (by intros []).
  rewrite (count_if_sup_log _ _ Hcall), (count_if_sup_log _ _ Hwait),
    (count_if_sup_log _ _ Hterm).
  assert (Hidem : w_procs (snd r) !! p = Some Reaped ->
                  w_procs (snd (util.kill name p (snd r))) = w_procs (snd r)).
  { intros Hdead. by rewrite (kill_reaped _ _ _ Hdead). }
  pose proof (python_main_view e ports) as Hview. cbv zeta in Hview.
  fold r in Hview. clearbody r.
  destruct Hview as [Hv | [Hv | [Hv | [Hr Hv]]]];
    injection Hv as Hh Hprocs Hsup; rewrite Hprocs in *; rewrite Hsup;
    cbn [length] in Hp.
  - lia.
  - assert (p = 0%nat) as -> by lia. repeat split; auto.
  - destruct p as [|[|p]]; [| |lia]; repeat split; auto.
  - destruct p as [|[|p]]; [| |lia]; repeat split; auto.
Qed.

Lemma exit_hook_runs_once_per_instance_witness :
  (1 < length (w_procs (snd (python test_ebics.main
         (Sim.initial_world (Sim.good_env (obj [("uuid", JStr "u1")])) ∅)))))%nat
  /\ count_if (is_hook_call 1%nat)
       (w_trace (snd (python test_ebics.main
          (Sim.initial_world (Sim.good_env (obj [("uuid", JStr "u1")])) ∅))))
     = 1%nat.
Proof.
  assert (Hlaunched :
    (1 < length (w_procs (snd (python test_ebics.main
           (Sim.initial_world (Sim.good_env (obj [("uuid", JStr "u1")])) ∅)))))%nat)
    by (vm_compute; lia).
  split; [exact Hlaunched|].
  exact (proj1 (exit_hook_runs_once_per_instance
                  (Sim.good_env (obj [("uuid", JStr "u1")])) ∅ 1%nat "nexus"
                  Hlaunched)).
Defined.

(** The claim as stated fails on the nexus readiness timeout: [terminate] is
    called on the nexus child twice, the first time by the polling loop. *)
Lemma nexus_timeout_terminates_twice :
  let r := python test_ebics.main (Sim.initial_world Sim.no_nexus_env ∅) in
  count_if (is_terminate 1%nat) (w_trace (snd r)) = 2%nat
  /\ count_if (is_hook_call 1%nat) (w_trace (snd r)) = 1%nat
  /\ fst r = 77.
Proof. vm_compute. done. Qed.

(** * Further properties of the structural checkers *)

Lemma for_in_nil {X} (body : X -> M loop_ctl) (w : world) :
  for_in body [] w = (Ok tt, w).
Proof. reflexivity. Qed.

(** One round of the loop of [CheckJsonTop.check]. *)
Lemma check_top_cons (c : checker) (checks : list checker) (j : json) (w : world) :
  util.check (CheckJsonTop (c :: checks)) j w
  = match util.check c j w with
    | (Ok _, w1) => util.check (CheckJsonTop checks) j w1
    | (Raise e, w1) => (Raise e, w1)
    end.
Proof.
  cbn [util.check for_in]. unfold bind at 1. unfold bind at 1.
  by destruct (util.check c j w) as [[[]|e] w1].
Qed.

Lemma py_in_world (name : string) (j : json) (w : world) :
  snd (py_in name j w) = w.
Proof. by destruct j. Qed.

Lemma py_in_raises (name : string) (j : json) (w : world) (e : exn) :
  fst (py_in name j w) = Raise e -> is_SystemExit e = false.
Proof. destruct j; cbn; intros He; by inversion He. Qed.

Lemma check_field_run (name : string) (nested : list checker) (j : json)
    (w : world) :
  util.check (CheckJsonField name nested) j w
  = match py_in name j w with
    | (Ok true, w1) =>
        match nested with
        | [] => (Ok tt, w1)
        | _ :: _ => (Raise (AttributeError "nested_check"), w1)
        end
    | (Ok false, w1) => (Raise (SystemExit 1), log [not_found name] w1)
    | (Raise e, w1) => (Raise e, w1)
    end.
Proof.
  cbn [util.check]. unfold bind.
  destruct (py_in name j w) as [[[]|e] w1]; [|reflexivity..].
  by destruct nested.
Qed.

Lemma check_cases (c : checker) (j : json) (w : world) :
  util.check c j w = (Ok tt, w)
  \/ (exists e, is_SystemExit e = false /\ util.check c j w = (Raise e, w))
  \/ (exists name,
        util.check c j w = (Raise (SystemExit 1), log [not_found name] w)).
Proof.
  revert w. induction c as [name nested _ | checks IH] using checker_ind_nested;
    intros w.
  - rewrite check_field_run.
    destruct (py_in name j w) as [[present|e] w1] eqn:Hin.
    + pose proof (py_in_world name j w) as Hw. rewrite Hin in Hw.
      cbn [snd] in Hw. subst w1. destruct present.
      * destruct nested as [|c nested]; [by left|].
        right. left. by exists (AttributeError "nested_check").
      * right. right. by exists name.
    + pose proof (py_in_world name j w) as Hw.
      pose proof (py_in_raises name j w e) as He. rewrite Hin in Hw, He.
      cbn [fst snd] in Hw, He. subst w1. right. left. exists e. auto.
  - induction IH as [|c checks Hc _ IHchecks]; [by left|].
    rewrite check_top_cons.
    destruct (Hc w) as [Hok | [(e & He & Hraise) | (name & Hexit)]].
    + rewrite Hok. apply IHchecks.
    + rewrite Hraise. right. left. by exists e.
    + rewrite Hexit. right. right. by exists name.
Qed.

(** X1: a check of any shape on any JSON value ends in one of three ways:
    it passes and leaves the world as it was; it raises an exception other
    than [SystemExit] and leaves the world as it was; or it prints exactly
    one diagnostic, naming a field, and exits with code 1. *)
Theorem check_outcomes (c : checker) (j : json) (w : world) :
  util.check c j w = (Ok tt, w)
  \/ (exists e, is_SystemExit e = false /\ util.check c j w = (Raise e, w))
  \/ (exists name,
        util.check c j w = (Raise (SystemExit 1), log [not_found name] w)).
Proof. exact (check_cases c j w). Qed.

Lemma check_leaf_present (name : string) (o : gmap string json) (w : world) :
  is_Some (o !! name) -> util.check (leaf name) (JObj o) w = (Ok tt, w).
Proof.
  intros Hpresent. unfold leaf. cbn [util.check]. unfold bind, py_in, ret.
  by rewrite bool_decide_eq_true_2.
Qed.

(** X2: on an object, a composite of plain field checks passes when every
    field is present; otherwise it reports the first missing field of the
    list, and only that one, and exits with code 1. *)
Theorem leaves_first_missing (names : list string) (o : gmap string json)
    (w : world) :
  (Forall (fun n => is_Some (o !! n)) names ->
     util.check (leaves names) (JObj o) w = (Ok tt, w))
  /\ (forall pre n post,
        names = pre ++ n :: post ->
        Forall (fun n => is_Some (o !! n)) pre ->
        o !! n = None ->
        util.check (leaves names) (JObj o) w
        = (Raise (SystemExit 1), log [not_found n] w)).
Proof.
  split.
  - induction 1 as [|n names Hn _ IH]; [reflexivity|].
    unfold leaves. cbn [map]. rewrite check_top_cons.
    fold (leaf n). by rewrite (check_leaf_present n o w Hn).
  - intros pre n post -> Hpre Habsent.
    induction Hpre as [|m pre Hm _ IH].
    + unfold leaves. cbn [app map]. rewrite check_top_cons.
      unfold leaf at 1. by rewrite (check_field_absent n [] o w Habsent).
    + unfold leaves. cbn [app map]. rewrite check_top_cons.
      by rewrite (check_leaf_present m o w Hm).
Qed.

Lemma leaves_first_missing_witness :
  (<["level" := JStr "all"]> ∅ : gmap string json) !! "rangeType" = None
  /\ util.check (leaves ["level"; "rangeType"; "extra"])
       (obj [("level", JStr "all")])
       (Sim.initial_world (Sim.good_env JNull) ∅)
     = (Raise (SystemExit 1),
        log [not_found "rangeType"] (Sim.initial_world (Sim.good_env JNull) ∅)).
Proof.
  split; [reflexivity|].
  apply (proj2 (leaves_first_missing ["level"; "rangeType"; "extra"]
                  (<["level" := JStr "all"]> ∅) _)
           ["level"] "rangeType" ["extra"] eq_refl).
  - repeat constructor. by eexists.
  - reflexivity.
Defined.

Lemma existsb_is_JStr (name : string) (l : list json) :
  JStr name ∈ l -> existsb (is_JStr name) l = true.
Proof.
  intros Hin. apply existsb_exists. exists (JStr name).
  split; [by apply list_elem_of_In|]. cbn. by apply bool_decide_eq_true_2.
Qed.

(** X3: the field check does not require an object.  It passes on a list
    that has the field name among its elements and on a string that has it
    as a substring; on [null], a boolean or a number it raises [TypeError]
    without printing. *)
Theorem check_field_on_non_objects (name : string) (nested : list checker)
    (w : world) :
  (forall l, JStr name ∈ l -> util.check (leaf name) (JArr l) w = (Ok tt, w))
  /\ (forall s, is_substring name s = true ->
        util.check (leaf name) (JStr s) w = (Ok tt, w))
  /\ (forall j, match j with JNull | JBool _ | JNum _ => True | _ => False end ->
        util.check (CheckJsonField name nested) j w
        = (Raise (TypeError "argument is not iterable"), w)).
Proof.
  split; [|split].
  - intros l Hin. unfold leaf. cbn [util.check]. unfold bind, py_in, ret.
    by rewrite (existsb_is_JStr _ _ Hin).
  - intros s Hsub. unfold leaf. cbn [util.check]. unfold bind, py_in, ret.
    by rewrite Hsub.
  - by intros [| | | | |] Hj.
Qed.

Lemma check_field_on_non_objects_witness :
  JStr "uuid" ∈ [JNum 1; JStr "uuid"]
  /\ util.check (leaf "uuid") (JArr [JNum 1; JStr "uuid"])
       (Sim.initial_world (Sim.good_env JNull) ∅)
     = (Ok tt, Sim.initial_world (Sim.good_env JNull) ∅).
Proof.
  assert (Hin : JStr "uuid" ∈ [JNum 1; JStr "uuid"])
    by (apply list_elem_of_In; right; by left).
  split; [exact Hin|].
  exact (proj1 (check_field_on_non_objects "uuid" []
                  (Sim.initial_world (Sim.good_env JNull) ∅)) _ Hin).
Defined.

(** * Further properties of the process supervisor *)

Lemma kill_run (name : string) (p : proc) (w : world) :
  util.kill name p w
  = (Ok tt, log (kill_events name p) (set_procs (killed p (w_procs w)) w)).
Proof.
  unfold util.kill, bind, print, emit, terminate, wait, kill_events, killed.
  cbn [fst snd]. f_equal. unfold log, set_trace, set_procs. cbn.
  by rewrite <- !app_assoc.
Qed.

Lemma killed_lookup (p : proc) (procs : list proc_state) :
  (p < length procs)%nat -> killed p procs !! p = Some Reaped.
Proof.
  intros Hp. unfold killed. apply list_lookup_insert_eq.
  destruct (procs !! p) as [[| |]|]; by rewrite ?length_insert.
Qed.

Lemma killed_lookup_ne (p q : proc) (procs : list proc_state) :
  q <> p -> killed p procs !! q = procs !! q.
Proof.
  intros Hne. unfold killed. rewrite list_lookup_insert_ne by done.
  destruct (procs !! p) as [[| |]|]; by rewrite ?list_lookup_insert_ne.
Qed.

Lemma killed_length (p : proc) (procs : list proc_state) :
  length (killed p procs) = length procs.
Proof.
  unfold killed. rewrite length_insert.
  destruct (procs !! p) as [[| |]|]; by rewrite ?length_insert.
Qed.

Lemma killed_killed (p : proc) (procs : list proc_state) :
  killed p (killed p procs) = killed p procs.
Proof.
  destruct (decide (p < length procs)%nat) as [Hp|Hp].
  - unfold killed at 1. rewrite (killed_lookup _ _ Hp).
    apply list_insert_id. by apply killed_lookup.
  - assert (Hge : killed p procs = procs).
    { unfold killed.
      assert (Hnone : procs !! p = None) by (apply lookup_ge_None; lia).
      rewrite Hnone. apply list_insert_ge. lia. }
    by rewrite !Hge.
Qed.

(** X4: [kill] always returns.  It leaves the child reaped whatever state it
    was in, leaves every other child, the exit hooks and the port table as
    they were, and logs its two messages around one [terminate] and one
    [wait]; a second [kill] of the same child changes nothing in the
    process table. *)
Theorem kill_reaps_only_its_child (name : string) (p : proc) (w : world) :
  (p < length (w_procs w))%nat ->
  exists w',
    util.kill name p w = (Ok tt, w')
    /\ w_trace w' = w_trace w ++ kill_events name p
    /\ w_procs w' !! p = Some Reaped
    /\ (forall q, q <> p -> w_procs w' !! q = w_procs w !! q)
    /\ length (w_procs w') = length (w_procs w)
    /\ w_hooks w' = w_hooks w
    /\ w_ports w' = w_ports w
    /\ w_procs (snd (util.kill name p w')) = w_procs w'.
Proof.
  intros Hp.
  exists (log (kill_events name p) (set_procs (killed p (w_procs w)) w)).
  split; [apply kill_run|]. split; [reflexivity|].
  split; [exact (killed_lookup p (w_procs w) Hp)|].
  split; [intros q Hq; exact (killed_lookup_ne p q (w_procs w) Hq)|].
  split; [exact (killed_length p (w_procs w))|].
  split; [reflexivity|]. split; [reflexivity|].
  rewrite kill_run. exact (killed_killed p (w_procs w)).
Qed.

Lemma kill_reaps_only_its_child_witness :
  (0 < length [Running; Signalled])%nat
  /\ exists w',
       util.kill "sandbox" 0%nat
         (set_procs [Running; Signalled] (Sim.initial_world (Sim.good_env JNull) ∅))
       = (Ok tt, w')
       /\ w_procs w' = [Reaped; Signalled].
Proof.
  split; [cbn; lia|].
  destruct (kill_reaps_only_its_child "sandbox" 0%nat
              (set_procs [Running; Signalled]
                 (Sim.initial_world (Sim.good_env JNull) ∅)))
    as (w' & Hrun & _); [cbn; lia|].
  exists w'. split; [exact Hrun|].
  rewrite kill_run in Hrun. by apply pair_equal_spec in Hrun as [_ <-].
Defined.

(** X5: in every run in which both services were launched, teardown is in
    reverse launch order: the hook of the nexus is called, and the nexus
    terminated and waited for, before the hook of the sandbox is called. *)
Theorem teardown_in_reverse_launch_order (e : env) (ports : gset Z) :
  (1 < length (w_procs (snd (python test_ebics.main (Sim.initial_world e ports)))))%nat ->
  exists direct,
    sup_log (snd (python test_ebics.main (Sim.initial_world e ports)))
    = direct
      ++ [ECallHook (KillHook "nexus" 1%nat); ETerminate 1%nat; EWait 1%nat;
          ECallHook (KillHook "sandbox" 0%nat); ETerminate 0%nat; EWait 0%nat]
    /\ (direct = [] \/ direct = [ETerminate 1%nat]).
Proof.
  intros Hboth.
  pose proof (python_main_view e ports) as Hview. cbv zeta in Hview.
  destruct Hview as [Hv | [Hv | [Hv | [_ Hv]]]];
    injection Hv as _ Hprocs Hsup; rewrite Hprocs in Hboth; cbn in Hboth;
    try lia; rewrite Hsup.
  - exists []. split; [done | by left].
  - exists [ETerminate 1%nat]. split; [done | by right].
Qed.

Lemma teardown_in_reverse_launch_order_witness :
  (1 < length (w_procs (snd (python test_ebics.main
         (Sim.initial_world Sim.no_nexus_env ∅)))))%nat
  /\ exists direct,
       sup_log (snd (python test_ebics.main (Sim.initial_world Sim.no_nexus_env ∅)))
       = direct
         ++ [ECallHook (KillHook "nexus" 1%nat); ETerminate 1%nat; EWait 1%nat;
             ECallHook (KillHook "sandbox" 0%nat); ETerminate 0%nat; EWait 0%nat]
       /\ (direct = [] \/ direct = [ETerminate 1%nat]).
Proof.
  assert (Hboth :
    (1 < length (w_procs (snd (python test_ebics.main
           (Sim.initial_world Sim.no_nexus_env ∅)))))%nat)
    by (vm_compute; lia).
  split; [exact Hboth|].
  exact (teardown_in_reverse_launch_order Sim.no_nexus_env ∅ Hboth).
Defined.

(** ** The port table *)

#[local] Instance same_ports_preorder : PreOrder same_ports.
Proof.
  split.
  - intros w. reflexivity.
  - intros w1 w2 w3 H12 H23. unfold same_ports in *. by rewrite H23.
Qed.

Lemma checkPort_same_ports (port : Z) : steps same_ports (util.checkPort port).
Proof.
  intros w. unfold same_ports. destruct (port_free w port) eqn:Hfree.
  - by rewrite (checkPort_free _ _ Hfree).
  - destruct (checkPort_busy _ _ Hfree) as [e ->]. reflexivity.
Qed.

Lemma check_same_ports (c : checker) (j : json) : steps same_ports (util.check c j).
Proof.
  intros w. unfold same_ports.
  destruct (check_cases c j w) as [-> | [(e & _ & ->) | (name & ->)]];
    reflexivity.
Qed.

(** Walks through a computation with respect to the port table. *)
Ltac ports_step :=
  lazymatch goal with
  | |- steps ?R (bind (raise _) _) => apply (steps_bind_raise R)
  | |- steps ?R (bind (unbound_name _) _) => apply (steps_bind_raise R)
  | |- steps ?R (bind _ _) =>
      apply (steps_bind R); [ports_step | intros ?; ports_step]
  | |- steps ?R (if _ then _ else _) => apply (steps_if R); ports_step
  | |- steps ?R (try_except _ _) =>
      apply (steps_try_except R); [ports_step | intros ?; ports_step]
  | |- steps ?R (for_in _ _) => apply (steps_for_in R); intros ?; ports_step
  | |- steps ?R (py_in _ _) => apply (steps_py_in R)
  | |- steps ?R (py_get _ _) => apply (steps_py_get R)
  | |- steps ?R (py_len _) => apply (steps_py_len R)
  | |- steps ?R (decode _) => apply (steps_decode R)
  | |- steps ?R (resp_json_m _) => apply (steps_resp_json_m R)
  | |- steps _ (util.checkPort _) => apply checkPort_same_ports
  | |- steps _ (util.check _ _) => apply check_same_ports
  | |- steps _ (json_checks.checkFetchTransactions _) =>
      intros ?; apply (steps_bind same_ports);
        [apply check_same_ports | intros ?; apply (steps_ret same_ports)]
  | |- steps _ (json_checks.checkPreparedPaymentElement _) =>
      intros ?; apply check_same_ports
  | |- steps _ (test_ebics.fail _) => unfold test_ebics.fail; ports_step
  | |- steps _ (util.assertResponse _) => unfold util.assertResponse; ports_step
  | |- steps _ (communicate _) => unfold communicate; ports_step
  | |- steps _ _ => intros ?; reflexivity
  end.

Lemma main_same_ports : steps same_ports test_ebics.main.
Proof.
  unfold test_ebics.main.
  apply (steps_bind _); [|intros _; apply (steps_bind _); [|intros _]].
  - unfold util.startSandbox. with_db_path util.startSandbox_dbname.
    unfold util.startSandbox_loop. ports_step.
  - unfold util.startNexus. with_db_path test_ebics.NEXUS_DB.
    unfold util.startNexus_loop. ports_step.
  - unfold_scenario. ports_step.
Qed.

Lemma run_hooks_same_ports (hs : list hook) : steps same_ports (run_hooks hs).
Proof.
  induction hs as [|[name s] hs IH]; cbn [run_hooks].
  - apply (steps_ret _).
  - apply (steps_bind _); [|intros _; exact IH].
    intros w. unfold run_hook, bind, emit. rewrite kill_run. reflexivity.
Qed.

(** X6: whatever the environment does, a run leaves the table of ports in
    use exactly as it found it: the port checks release what they bind, and
    nothing else in the harness binds a port. *)
Theorem run_leaves_ports_as_found (w : world) :
  w_ports (snd (python test_ebics.main w)) = w_ports w.
Proof.
  unfold python. pose proof (main_same_ports w) as Hmain.
  destruct (test_ebics.main w) as [r w1]. cbn [snd] in *.
  rewrite (run_hooks_same_ports _ _). rewrite <- Hmain.
  by destruct r as [?|[]].
Qed.

(** ** [startSandbox] and [startNexus] as a whole *)

Lemma bind_check_call {B} (argv : list string) (k : unit -> M B) (w : world) :
  bind (check_call argv) k w
  = if env_check_call (w_env w) (w_trace w) argv
    then k tt (log [ECheckCall argv true] w)
    else (Raise CalledProcessError, log [ECheckCall argv false] w).
Proof.
  unfold bind, check_call.
  by destruct (env_check_call (w_env w) (w_trace w) argv).
Qed.

Lemma bind_checkPort {B} (port : Z) (k : unit -> M B) (w : world) :
  bind (util.checkPort port) k w
  = if port_free w port
    then k tt (log [EBind port true; EClose port] w)
    else (Raise (SystemExit 77), snd (util.checkPort port w)).
Proof.
  unfold bind. destruct (port_free w port) eqn:Hfree.
  - by rewrite (checkPort_free _ _ Hfree).
  - by destruct (checkPort_busy _ _ Hfree) as [e ->].
Qed.

Lemma checkPort_keeps (port : Z) (w : world) :
  w_hooks (snd (util.checkPort port w)) = w_hooks w
  /\ w_procs (snd (util.checkPort port w)) = w_procs w.
Proof.
  pose proof (checkPort_unsupervised port w) as [_ H]. exact H.
Qed.

Lemma startSandbox_cases (dbname : string) (w : world) :
  let db := env_cwd_join (w_env w) dbname in
  let n := length (w_procs w) in
  let r := fst (util.startSandbox dbname w) in
  let w' := snd (util.startSandbox dbname w) in
  (prerequisite_failure r /\ w_procs w' = w_procs w /\ w_hooks w' = w_hooks w)
  \/ (port_free w 5000 = true
      /\ w_procs w' = w_procs w ++ [Running]
      /\ w_hooks w' = w_hooks w ++ [KillHook "sandbox" n]
      /\ ((exists k resp,
             (k < 10)%nat /\ r = Ok tt
             /\ w_trace w'
                = w_trace w ++ sandbox_prelude db n
                  ++ rounds util.SANDBOX_ROOT 2 k
                  ++ [EHttp (probe util.SANDBOX_ROOT) (Some resp)])
          \/ (r = Raise (NameError "nexus")
              /\ w_trace w'
                 = w_trace w ++ sandbox_prelude db n
                   ++ rounds util.SANDBOX_ROOT 2 9
                   ++ [EHttp (probe util.SANDBOX_ROOT) None]))).
Proof.
  intros db n r w'. subst r w'. unfold util.startSandbox. cbv zeta. fold db.
  rewrite bind_check_call.
  destruct (env_check_call _ _ _); [|left; split; [by left | done]].
  rewrite bind_check_call.
  destruct (env_check_call _ _ _); [|left; split; [by left | done]].
  rewrite bind_checkPort.
  change (port_free (log _ (log _ w)) 5000) with (port_free w 5000).
  destruct (port_free w 5000) eqn:Hfree.
  2:{ left. split; [by right|]. cbn [fst snd].
      match goal with
      | |- context [util.checkPort 5000 ?w0] =>
          destruct (checkPort_keeps 5000 w0) as [Hh Hp]
      end.
      by rewrite Hh, Hp. }
  right. split; [done|]. rewrite launch_run.
  match goal with
  | |- context [util.startSandbox_loop ?wl] =>
      destruct (startSandbox_loop_shape wl) as [(k & resp & Hk & _ & ->) | ->]
  end; cbn [fst snd].
  - split; [done|]. split; [done|]. left. exists k, resp.
    split; [done|]. split; [done|].
    unfold launched, sandbox_prelude; cbn. by rewrite <- !app_assoc.
  - split; [done|]. split; [done|]. right. split; [done|].
    unfold launched, sandbox_prelude; cbn [w_trace log set_trace snd Popen
      atexit_register set_procs set_hooks].
    by rewrite <- !app_assoc.
Qed.

(** X7: [startSandbox] ends in one of three ways.  A prerequisite fails (a
    build step raises, or the port check exits with 77) and then no child
    was launched and no hook registered.  Or the database was removed, the
    build succeeded and port 5000 was free, in that order, the child was
    launched and its hook registered, and then either probe [k + 1 <= 10] is
    the first one answered and [startSandbox] returns, or no probe is
    answered and [NameError] is raised with the child still running and its
    hook registered. *)
Theorem startSandbox_outcomes (dbname : string) (w : world) :
  let db := env_cwd_join (w_env w) dbname in
  let n := length (w_procs w) in
  let r := fst (util.startSandbox dbname w) in
  let w' := snd (util.startSandbox dbname w) in
  (prerequisite_failure r /\ w_procs w' = w_procs w /\ w_hooks w' = w_hooks w)
  \/ (port_free w 5000 = true
      /\ w_procs w' = w_procs w ++ [Running]
      /\ w_hooks w' = w_hooks w ++ [KillHook "sandbox" n]
      /\ ((exists k resp,
             (k < 10)%nat /\ r = Ok tt
             /\ w_trace w'
                = w_trace w ++ sandbox_prelude db n
                  ++ rounds util.SANDBOX_ROOT 2 k
                  ++ [EHttp (probe util.SANDBOX_ROOT) (Some resp)])
          \/ (r = Raise (NameError "nexus")
              /\ w_trace w'
                 = w_trace w ++ sandbox_prelude db n
                   ++ rounds util.SANDBOX_ROOT 2 9
                   ++ [EHttp (probe util.SANDBOX_ROOT) None]))).
Proof. exact (startSandbox_cases dbname w). Qed.

Lemma log_trace (evs : list event) (w : world) :
  w_trace (log evs w) = w_trace w ++ evs.
Proof. reflexivity. Qed.

Lemma launched_trace (argv : list string) (out err name : string) (w : world) :
  w_trace (launched argv out err name w)
  = w_trace w ++ [EPopen argv out err (length (w_procs w));
                  ERegister (KillHook name (length (w_procs w)))].
Proof. unfold launched; cbn. by rewrite <- app_assoc. Qed.

Lemma launched_procs (argv : list string) (out err name : string) (w : world) :
  w_procs (launched argv out err name w) = w_procs w ++ [Running].
Proof. reflexivity. Qed.

Lemma launched_hooks (argv : list string) (out err name : string) (w : world) :
  w_hooks (launched argv out err name w)
  = w_hooks w ++ [KillHook name (length (w_procs w))].
Proof. reflexivity. Qed.

Lemma terminate_hooks (p : proc) (w : world) :
  w_hooks (snd (terminate p w)) = w_hooks w.
Proof. reflexivity. Qed.

Lemma terminate_procs (p : proc) (w : world) :
  w_procs (snd (terminate p w))
  = match w_procs w !! p with
    | Some Running => <[p := Signalled]> (w_procs w)
    | _ => w_procs w
    end.
Proof. reflexivity. Qed.

Lemma terminate_trace (p : proc) (w : world) :
  w_trace (snd (terminate p w)) = w_trace w ++ [ETerminate p].
Proof. reflexivity. Qed.

Lemma startNexus_cases (dbname : string) (w : world) :
  let db := env_cwd_join (w_env w) dbname in
  let n := length (w_procs w) in
  let r := fst (util.startNexus dbname w) in
  let w' := snd (util.startNexus dbname w) in
  (prerequisite_failure r /\ w_procs w' = w_procs w /\ w_hooks w' = w_hooks w)
  \/ (port_free w 5001 = true
      /\ w_hooks w' = w_hooks w ++ [KillHook "nexus" n]
      /\ ((exists k resp,
             (k < 80)%nat /\ r = Ok n
             /\ w_procs w' = w_procs w ++ [Running]
             /\ w_trace w'
                = w_trace w ++ nexus_prelude db n
                  ++ rounds util.NEXUS_ROOT 1 k
                  ++ [EHttp (probe util.NEXUS_ROOT) (Some resp)])
          \/ (r = Raise (SystemExit 77)
              /\ w_procs w' = w_procs w ++ [Signalled]
              /\ w_trace w'
                 = w_trace w ++ nexus_prelude db n
                   ++ rounds util.NEXUS_ROOT 1 79
                   ++ [EHttp (probe util.NEXUS_ROOT) None; ETerminate n;
                       EPrint "Nexus timed out"]))).
Proof.
  intros db n r w'. subst r w'. unfold util.startNexus. cbv zeta. fold db.
  rewrite bind_check_call.
  destruct (env_check_call _ _ _); [|left; split; [by left | done]].
  rewrite bind_check_call.
  destruct (env_check_call _ _ _); [|left; split; [by left | done]].
  rewrite bind_check_call.
  destruct (env_check_call _ _ _); [|left; split; [by left | done]].
  rewrite bind_checkPort.
  change (port_free (log _ (log _ (log _ w))) 5001) with (port_free w 5001).
  destruct (port_free w 5001) eqn:Hfree.
  2:{ left. split; [by right|]. cbn [fst snd].
      match goal with
      | |- context [util.checkPort 5001 ?w0] =>
          destruct (checkPort_keeps 5001 w0) as [Hh Hp]
      end.
      by rewrite Hh, Hp. }
  right. split; [done|].
  rewrite (launch_run _ _ _ "nexus"
             (fun nexus => util.startNexus_loop nexus ;; ret nexus)).
  unfold bind.
  match goal with
  | |- context [util.startNexus_loop ?p ?wl] =>
      change p with n;
      pose proof (launched_trace
                    ["../gradlew"; "-p"; ".."; "nexus:run"; "--console=plain";
                     "--args=serve --db-name=" +:+ db]
                    "nexus-stdout.log" "nexus-stderr.log" "nexus"
                    (log [EBind 5001 true; EClose 5001]
                       (log [ECheckCall ["../gradlew"; "-p"; ".."; "nexus:run";
                                         "--console=plain";
                                         "--args=superuser admin --password x --db-name="
                                         +:+ db] true]
                          (log [ECheckCall ["../gradlew"; "-p"; "..";
                                            "nexus:assemble"] true]
                             (log [ECheckCall ["rm"; "-f"; "--"; db] true] w)))))
        as Htrace;
      pose proof (eq_refl : w_procs wl = w_procs w ++ [Running]) as Hprocs;
      pose proof (eq_refl : w_hooks wl = w_hooks w ++ [KillHook "nexus" n])
        as Hhooks;
      set (wl0 := wl) in *; clearbody wl0;
      destruct (startNexus_loop_shape n wl0) as [(k & resp & Hk & _ & ->) | ->]
  end; unfold ret; cbn [fst snd].
  - rewrite log_hooks. split; [exact Hhooks|]. left. exists k, resp.
    split; [done|]. split; [done|]. rewrite log_procs, log_trace.
    split; [exact Hprocs|]. rewrite Htrace. cbn [log w_trace set_trace].
    unfold nexus_prelude. by rewrite <- !app_assoc.
  - rewrite log_hooks, terminate_hooks, log_hooks. split; [exact Hhooks|].
    right. split; [done|].
    rewrite log_procs, terminate_procs, log_procs, Hprocs.
    split; [apply terminate_launched|].
    rewrite log_trace, terminate_trace, log_trace, Htrace.
    cbn [log w_trace set_trace].
    unfold nexus_prelude. by rewrite <- !app_assoc.
Qed.

(** X8: [startNexus] ends in one of three ways.  A prerequisite fails (a
    build step or the superuser bootstrap raises, or the port check exits
    with 77) and then no child was launched and no hook registered.  Or the
    database was removed, the build and the bootstrap succeeded and port
    5001 was free, in that order, the child was launched and its hook
    registered; and then either probe [k + 1 <= 80] is the first one
    answered and [startNexus] returns the handle of that child, which is
    running, or no probe is answered, the child is sent [terminate],
    "Nexus timed out" is printed and the exit code is 77. *)
Theorem startNexus_outcomes (dbname : string) (w : world) :
  let db := env_cwd_join (w_env w) dbname in
  let n := length (w_procs w) in
  let r := fst (util.startNexus dbname w) in
  let w' := snd (util.startNexus dbname w) in
  (prerequisite_failure r /\ w_procs w' = w_procs w /\ w_hooks w' = w_hooks w)
  \/ (port_free w 5001 = true
      /\ w_hooks w' = w_hooks w ++ [KillHook "nexus" n]
      /\ ((exists k resp,
             (k < 80)%nat /\ r = Ok n
             /\ w_procs w' = w_procs w ++ [Running]
             /\ w_trace w'
                = w_trace w ++ nexus_prelude db n
                  ++ rounds util.NEXUS_ROOT 1 k
                  ++ [EHttp (probe util.NEXUS_ROOT) (Some resp)])
          \/ (r = Raise (SystemExit 77)
              /\ w_procs w' = w_procs w ++ [Signalled]
              /\ w_trace w'
                 = w_trace w ++ nexus_prelude db n
                   ++ rounds util.NEXUS_ROOT 1 79
                   ++ [EHttp (probe util.NEXUS_ROOT) None; ETerminate n;
                       EPrint "Nexus timed out"]))).
Proof. exact (startNexus_cases dbname w). Qed.

(** * How the script ends *)

Section Raises.

Context (Q : exn -> world -> Prop).
Context (Q_other : forall e w, is_SystemExit e = false -> Q e w).

Lemma raises_ret {A} (a : A) : raises Q (ret a).
Proof. intros w e He. discriminate He. Qed.

Lemma raises_no_exit {A} (m : M A) : no_exit m -> raises Q m.
Proof. intros Hm w e He. apply Q_other. by apply (Hm w). Qed.

Lemma raises_bind {A B} (m : M A) (k : A -> M B) :
  raises Q m -> (forall a, raises Q (k a)) -> raises Q (bind m k).
Proof.
  intros Hm Hk w e. unfold bind. specialize (Hm w).
  destruct (m w) as [[a|e'] w1]; cbn [fst snd] in *.
  - apply Hk.
  - intros He. injection He as <-. by apply Hm.
Qed.

(** A statement that always raises the same way makes what follows dead. *)
Lemma raises_bind_dead {A B} (m : M A) (k : A -> M B) :
  (forall w, exists e, is_SystemExit e = false /\ m w = (Raise e, w)) ->
  raises Q (bind m k).
Proof.
  intros Hm w e. unfold bind. destruct (Hm w) as (e' & He' & ->).
  cbn. intros He. injection He as <-. by apply Q_other.
Qed.

Lemma raises_try_except {A} (body : M A) (handler : exn -> M A) :
  (forall e, raises Q (handler e)) -> raises Q (try_except body handler).
Proof.
  intros Hh w e. unfold try_except.
  destruct (body w) as [[a|e'] w1]; [discriminate|]. apply Hh.
Qed.

Lemma raises_for_in {X} (body : X -> M loop_ctl) (xs : list X) :
  (forall x, raises Q (body x)) -> raises Q (for_in body xs).
Proof.
  intros Hb. induction xs as [|x xs IH]; [apply raises_ret|].
  cbn [for_in]. apply raises_bind; [apply Hb|].
  intros [|]; [exact IH | apply raises_ret].
Qed.

Lemma raises_if {A} (b : bool) (m1 m2 : M A) :
  raises Q m1 -> raises Q m2 -> raises Q (if b then m1 else m2).
Proof. by destruct b. Qed.

(** [emit ev; exit(code)] *)
Lemma raises_emit_exit {A} (ev : event) (code : Z) :
  (forall w, Q (SystemExit code) (log [ev] w)) ->
  raises Q (emit ev ;; (exit code : M A)).
Proof. intros HQ w e He. injection He as <-. apply HQ. Qed.

End Raises.

Section NoExit.

Lemma no_exit_emit (ev : event) : no_exit (emit ev).
Proof. intros w e He. discriminate He. Qed.

Lemma no_exit_http (r : request) : no_exit (http r).
Proof.
  intros w e. unfold http. destruct (env_http _ _ _); cbn; [discriminate|].
  by intros [= <-].
Qed.

Lemma no_exit_check_call (argv : list string) : no_exit (check_call argv).
Proof.
  intros w e. unfold check_call. destruct (env_check_call _ _ _); cbn;
    [discriminate|]. by intros [= <-].
Qed.

Lemma no_exit_Popen (argv : list string) (out err : string) :
  no_exit (Popen argv out err).
Proof. intros w e He. discriminate He. Qed.

Lemma no_exit_atexit_register (h : hook) : no_exit (atexit_register h).
Proof. intros w e He. discriminate He. Qed.

Lemma no_exit_terminate (p : proc) : no_exit (terminate p).
Proof. intros w e He. discriminate He. Qed.

Lemma no_exit_py_get (j : json) (name : string) : no_exit (py_get j name).
Proof. intros w e. destruct j; cbn; try discriminate; by intros [= <-]. Qed.

Lemma no_exit_py_len (j : json) : no_exit (py_len j).
Proof. intros w e. destruct j; cbn; try discriminate; by intros [= <-]. Qed.

Lemma no_exit_resp_json_m (r : response) : no_exit (resp_json_m r).
Proof.
  intros w e. unfold resp_json_m. destruct (resp_json r); cbn;
    [discriminate|]. by intros [= <-].
Qed.

End NoExit.

Lemma exit_reported_other (e : exn) (w : world) :
  is_SystemExit e = false -> exit_reported e w.
Proof. by destruct e. Qed.

Lemma not_exit_77_other (e : exn) (w : world) :
  is_SystemExit e = false -> not_exit_77 e w.
Proof. by destruct e. Qed.

Lemma raises_check_not_77 (c : checker) (j : json) :
  raises not_exit_77 (util.check c j).
Proof.
  intros w e.
  destruct (check_cases c j w) as [-> | [(e' & He' & ->) | (name & ->)]];
    cbn [fst snd]; intros He; [discriminate | |]; injection He as <-.
  - by apply not_exit_77_other.
  - discriminate.
Qed.

Lemma not_exit_0_other (e : exn) (w : world) :
  is_SystemExit e = false -> not_exit_0 e w.
Proof. by destruct e. Qed.

Lemma raises_check_not_0 (c : checker) (j : json) :
  raises not_exit_0 (util.check c j).
Proof.
  intros w e.
  destruct (check_cases c j w) as [-> | [(e' & He' & ->) | (name & ->)]];
    cbn [fst snd]; intros He; [discriminate | |]; injection He as <-.
  - by apply not_exit_0_other.
  - discriminate.
Qed.

Lemma raises_check (c : checker) (j : json) : raises exit_reported (util.check c j).
Proof.
  intros w e.
  destruct (check_cases c j w) as [-> | [(e' & He' & ->) | (name & ->)]];
    cbn [fst snd]; intros He; [discriminate | |]; injection He as <-.
  - by apply exit_reported_other.
  - exists (not_found name). unfold last_effect. rewrite log_trace, last_snoc.
    split; [done|]. right. left. split; [done|].
    unfold failure_report. eauto 10.
Qed.

(** The port check exits right after printing the class of the exception
    that the bind raised. *)
Lemma raises_checkPort (port : Z) : raises exit_reported (util.checkPort port).
Proof.
  intros w e He.
  destruct (port_free w port) eqn:Hfree.
  - rewrite (checkPort_free _ _ Hfree) in He. discriminate He.
  - assert (Hrun : exists e',
              (e' = OSError \/ e' = OverflowError)
              /\ socket_bind port w = (Raise e', log [EBind port false] w)).
    { destruct (port_free_false _ _ Hfree) as [[Hrange Hin]|Hrange].
      - exists OSError. split; [by left|]. by apply socket_bind_in_use.
      - exists OverflowError. split; [by right|].
        by apply socket_bind_out_of_range. }
    destruct Hrun as (e' & Hclass & Hbind).
    rewrite (checkPort_bind_raises _ _ _ _ Hbind) in He |- *.
    cbn [fst snd] in *. injection He as <-.
    unfold exit_reported, last_effect. rewrite log_trace.
    change [EPrint ("Port " +:+ pretty port +:+ " is not available");
            EPrint ("<class '" +:+ exn_class e' +:+ "'>")]
      with ([EPrint ("Port " +:+ pretty port +:+ " is not available")]
            ++ [EPrint ("<class '" +:+ exn_class e' +:+ "'>")]).
    rewrite app_assoc, last_snoc. eexists. split; [reflexivity|].
    right. right. split; [reflexivity|].
    unfold unavailable_report. destruct Hclass as [-> | ->]; cbn; auto.
Qed.

Create HintDb no_exit.

#[local] Hint Resolve no_exit_emit no_exit_http no_exit_check_call no_exit_Popen
  no_exit_atexit_register no_exit_terminate no_exit_py_get no_exit_py_len
  no_exit_resp_json_m : no_exit.

(** Discharges [exit_reported] right after the diagnostic is logged, or
    [not_exit_77] and [not_exit_0] for an exit with another code. *)
Ltac exit_ok :=
  intros;
  first
    [ unfold exit_reported, last_effect; rewrite log_trace, last_snoc;
      eexists; split; [reflexivity|];
      first [ left; unfold response_report; by eexists
            | right; left; split; [reflexivity|]; unfold failure_report; eauto 10
            | right; right; split; [reflexivity|];
              unfold unavailable_report; eauto 10 ]
    | unfold not_exit_77; discriminate
    | unfold not_exit_0; discriminate ].

Ltac other_ok :=
  first [ exact exit_reported_other | exact not_exit_77_other
        | exact not_exit_0_other ].

Ltac check_ok :=
  first [ apply raises_check | apply raises_check_not_77
        | apply raises_check_not_0 ].

(** Walks through a computation looking at the ways it can raise. *)
Ltac raises_step :=
  lazymatch goal with
  | |- raises ?Q (bind (emit _) (fun _ => exit _)) =>
      apply (raises_emit_exit Q); exit_ok
  | |- raises ?Q (bind (print _) (fun _ => exit _)) =>
      apply (raises_emit_exit Q); exit_ok
  | |- raises ?Q (bind (bind (unbound_name _) _) _) =>
      apply (raises_bind_dead Q); [other_ok|];
        intros ?; eexists; split; [|reflexivity]; reflexivity
  | |- raises ?Q (bind _ _) =>
      apply (raises_bind Q); [raises_step | intros ?; raises_step]
  | |- raises ?Q (ret _) => apply (raises_ret Q)
  | |- raises ?Q (if _ then _ else _) => apply (raises_if Q); raises_step
  | |- raises ?Q (try_except _ _) =>
      apply (raises_try_except Q); intros ?; raises_step
  | |- raises ?Q (for_in _ _) => apply (raises_for_in Q); intros ?; raises_step
  | |- raises _ (util.check _ _) => check_ok
  | |- raises ?Q (json_checks.checkFetchTransactions _) =>
      intros ?; apply (raises_bind Q); [check_ok | intros ?; apply (raises_ret Q)]
  | |- raises _ (json_checks.checkPreparedPaymentElement _) =>
      intros ?; check_ok
  | |- raises _ (test_ebics.fail _) => unfold test_ebics.fail; raises_step
  | |- raises _ (util.assertResponse _) => unfold util.assertResponse; raises_step
  | |- raises _ (util.checkPort _) =>
      first [apply raises_checkPort | unfold util.checkPort; raises_step]
  | |- raises ?Q _ =>
      apply (raises_no_exit Q); [other_ok | eauto with no_exit]
  end.

(** Bringing up the services and running the scenario, one after the other. *)
Ltac main_raises Q :=
  unfold test_ebics.main;
  apply (raises_bind _); [|intros _; apply (raises_bind _); [|intros _]];
  [ unfold util.startSandbox; intros w; cbv zeta;
    generalize (env_cwd_join (w_env w) util.startSandbox_dbname); intros db;
    revert w;
    lazymatch goal with
    | |- forall w e, fst (?m w) = Raise e -> _ => change (raises Q m)
    end;
    unfold util.startSandbox_loop; raises_step
  | unfold util.startNexus; intros w; cbv zeta;
    generalize (env_cwd_join (w_env w) test_ebics.NEXUS_DB); intros db;
    revert w;
    lazymatch goal with
    | |- forall w e, fst (?m w) = Raise e -> _ => change (raises Q m)
    end;
    unfold util.startNexus_loop; raises_step
  | unfold_scenario; raises_step ].

Lemma main_exit_reported : raises exit_reported test_ebics.main.
Proof. main_raises exit_reported. Qed.

Lemma main_never_exits_0 : raises not_exit_0 test_ebics.main.
Proof. main_raises not_exit_0. Qed.

(** X9: whatever the environment does, the script never exits silently: when
    it ends by [exit] the last thing it did before was to print a
    diagnostic.  That is the response diagnostics of [assertResponse]; or,
    with code 1, a count or UUID message of [fail] or a missing-field
    message of a checker; or, with code 77, "Nexus timed out" or the class
    of the exception of the failed bind of the port check, [OSError] or
    [OverflowError]. *)
Theorem exits_are_reported (w : world) (code : Z) :
  fst (test_ebics.main w) = Raise (SystemExit code) ->
  exists ev,
    last_effect (snd (test_ebics.main w)) = Some ev
    /\ ((exists r, ev = EPrintResponse r)
        \/ (code = 1 /\ failure_report ev)
        \/ (code = 77 /\ unavailable_report ev)).
Proof. intros Hexit. exact (main_exit_reported w _ Hexit). Qed.

Lemma exits_are_reported_witness :
  fst (test_ebics.main (Sim.initial_world (Sim.good_env JNull) {[5000]}))
  = Raise (SystemExit 77)
  /\ exists ev,
       last_effect (snd (test_ebics.main
                           (Sim.initial_world (Sim.good_env JNull) {[5000]})))
       = Some ev
       /\ ((exists r, ev = EPrintResponse r)
           \/ (77 = 1 /\ failure_report ev)
           \/ (77 = 77 /\ unavailable_report ev)).
Proof.
  assert (Hexit :
    fst (test_ebics.main (Sim.initial_world (Sim.good_env JNull) {[5000]}))
    = Raise (SystemExit 77)) by (vm_compute; reflexivity).
  split; [exact Hexit|].
  exact (exits_are_reported _ 77 Hexit).
Defined.

Section Returns.

Context (Q : world -> Prop).

Lemma returns_bind {A B} (m : M A) (k : A -> M B) :
  (forall a, returns Q (k a)) -> returns Q (bind m k).
Proof.
  intros Hk w b. unfold bind.
  destruct (m w) as [[a|e] w1]; [apply Hk | discriminate].
Qed.

End Returns.

Lemma main_returns_passed :
  returns (fun w => last_effect w = Some (EPrint "Test passed!")) test_ebics.main.
Proof.
  unfold test_ebics.main. unfold_scenario.
  repeat (apply returns_bind; intros ?).
  intros w0 res _. unfold last_effect. cbn. apply last_snoc.
Qed.

(** X10: the exit status of a run is 0 exactly when the script ran to its
    last statement, and then the last thing the script did was to print
    "Test passed!". *)
Theorem status_0_iff_passed (w : world) :
  (fst (python test_ebics.main w) = 0 <-> fst (test_ebics.main w) = Ok tt)
  /\ (fst (test_ebics.main w) = Ok tt ->
        last_effect (snd (test_ebics.main w)) = Some (EPrint "Test passed!")).
Proof.
  split.
  - assert (Hstatus : fst (python test_ebics.main w)
                      = exit_status (fst (test_ebics.main w))).
    { unfold python. by destruct (test_ebics.main w). }
    rewrite Hstatus. split.
    + intros H0. destruct (fst (test_ebics.main w)) as [[]|e] eqn:Hr; [done|].
      destruct e; cbn in H0; try discriminate. subst code.
      by destruct (main_never_exits_0 w _ Hr).
    + by intros ->.
  - intros Hok. exact (main_returns_passed w tt Hok).
Qed.

(** * The requests of the scenario *)

Lemma yields_bind {A B} (S1 : result A -> list event -> Prop)
    (S2 : A -> result B -> list event -> Prop)
    (S : result B -> list event -> Prop) (m : M A) (k : A -> M B) :
  yields S1 m ->
  (forall a, yields (S2 a) (k a)) ->
  (forall e evs, S1 (Raise e) evs -> S (Raise e) evs) ->
  (forall a evs1 r evs2, S1 (Ok a) evs1 -> S2 a r evs2 -> S r (evs1 ++ evs2)) ->
  yields S (bind m k).
Proof.
  intros Hm Hk Hraise Hok w. unfold bind.
  destruct (Hm w) as (evs1 & Ht1 & HS1).
  destruct (m w) as [[a|e] w1]; cbn [fst snd] in *.
  - destruct (Hk a w1) as (evs2 & Ht2 & HS2).
    exists (evs1 ++ evs2). rewrite Ht2, Ht1, app_assoc. split; [done|].
    by apply (Hok a).
  - exists evs1. split; [done|]. by apply Hraise.
Qed.

Lemma yields_weaken {A} (S S' : result A -> list event -> Prop) (m : M A) :
  (forall r evs, S r evs -> S' r evs) -> yields S m -> yields S' m.
Proof.
  intros HS Hm w. destruct (Hm w) as (evs & Ht & H). exists evs. auto.
Qed.

(** A computation that sends nothing. *)
Lemma silent_yields {A} (S : result A -> list event -> Prop) (m : M A) :
  steps (quietly (fun ev => is_request ev = false)) m ->
  (forall r evs, Forall (fun ev => is_request ev = false) evs -> S r evs) ->
  yields S m.
Proof.
  intros Hm HS w. destruct (Hm w) as [(evs & Ht & Hevs) _].
  exists evs. split; [done|]. by apply HS.
Qed.

Lemma no_request_no_failure (evs : list event) :
  Forall (fun ev => is_request ev = false) evs ->
  stops_at_failure evs = true /\ no_failure evs = true.
Proof.
  induction 1 as [|ev evs Hev _ [IH1 IH2]]; [done|].
  assert (Hf : is_failed_request ev = false) by (by destruct ev).
  cbn. rewrite Hf. by split.
Qed.

Lemma stops_at_failure_app (evs1 evs2 : list event) :
  no_failure evs1 = true -> stops_at_failure evs2 = true ->
  stops_at_failure (evs1 ++ evs2) = true.
Proof.
  intros H1 H2. induction evs1 as [|ev evs1 IH]; [done|].
  cbn in *. apply andb_true_iff in H1 as [Hev H1].
  apply negb_true_iff in Hev. rewrite Hev. by apply IH.
Qed.

Lemma no_failure_app (evs1 evs2 : list event) :
  no_failure evs1 = true -> no_failure evs2 = true ->
  no_failure (evs1 ++ evs2) = true.
Proof. unfold no_failure. rewrite forallb_app. by intros -> ->. Qed.

Lemma fail_fast_bind {A B} (m : M A) (k : A -> M B) :
  yields fail_fast m -> (forall a, yields fail_fast (k a)) ->
  yields fail_fast (bind m k).
Proof.
  intros Hm Hk.
  apply (yields_bind fail_fast (fun _ => fail_fast) fail_fast m k Hm Hk).
  - intros e evs [H1 _]. by split.
  - intros a evs1 r evs2 [_ H1] [H2 H3]. specialize (H1 I). split.
    + by apply stops_at_failure_app.
    + intros Hr. apply no_failure_app; auto.
Qed.

Lemma fail_fast_silent {A} (m : M A) :
  steps (quietly (fun ev => is_request ev = false)) m -> yields fail_fast m.
Proof.
  intros Hm. apply (silent_yields _ m Hm). intros r evs Hevs.
  destruct (no_request_no_failure evs Hevs). by split.
Qed.

(** A request checked by [assertResponse], and what follows it. *)
Lemma fail_fast_request {B} (req : request) (k : response -> M B) :
  (forall resp, yields fail_fast (k resp)) ->
  yields fail_fast (r <- http req ;; resp <- util.assertResponse r ;; k resp).
Proof.
  intros Hk w. unfold bind, http, util.assertResponse.
  destruct (env_http (w_env w) (w_trace w) req) as [r|]; cbn [fst snd].
  - destruct (resp_ok r) eqn:Hok.
    + destruct (Hk r (log [EHttp req (Some r)] w)) as (evs & Ht & Hs & Hn).
      exists (EHttp req (Some r) :: evs). unfold ret. cbn [fst snd].
      rewrite Ht. cbn. rewrite <- app_assoc. split; [done|].
      unfold fail_fast, no_failure. cbn. rewrite Hok. cbn. by split.
    + exists [EHttp req (Some r); EPrintResponse r]. cbn.
      rewrite <- app_assoc. split; [done|].
      unfold fail_fast. cbn. rewrite Hok. by split.
  - exists [EHttp req None]. by split.
Qed.

(** Walks through the scenario request by request. *)
Ltac ff_step :=
  lazymatch goal with
  | |- yields fail_fast (bind _ _) =>
      first [ apply fail_fast_request; intros ?; ff_step
            | apply fail_fast_bind; [ff_step | intros ?; ff_step] ]
  | |- yields fail_fast _ => apply fail_fast_silent; quiet_step
  end.

Lemma scenario_fail_fast : yields fail_fast test_ebics.scenario.
Proof. unfold_scenario. unfold post, get. ff_step. Qed.

Lemma failed_request_is_request (ev : event) :
  is_failed_request ev = true -> is_request ev = true.
Proof. by destruct ev. Qed.

Lemma stops_at_failure_split (l1 l2 : list event) (ev : event) :
  stops_at_failure (l1 ++ ev :: l2) = true ->
  is_failed_request ev = true ->
  Forall (fun ev' => is_request ev' = false) l2.
Proof.
  intros Hstop Hbad. induction l1 as [|x l1 IH]; cbn in Hstop.
  - rewrite Hbad in Hstop. apply Forall_forall. intros ev' Hin.
    rewrite forallb_forall in Hstop. apply list_elem_of_In in Hin.
    specialize (Hstop _ Hin). by apply negb_true_iff.
  - destruct (is_failed_request x); [|by apply IH].
    rewrite forallb_app in Hstop. apply andb_true_iff in Hstop as [_ Hstop].
    cbn in Hstop. rewrite (failed_request_is_request _ Hbad) in Hstop.
    discriminate.
Qed.

Lemma no_failure_split (l1 l2 : list event) (ev : event) :
  no_failure (l1 ++ ev :: l2) = true -> is_failed_request ev = false.
Proof.
  unfold no_failure. rewrite forallb_app. cbn.
  intros H. apply andb_true_iff in H as [_ H].
  apply andb_true_iff in H as [H _]. by apply negb_true_iff.
Qed.

(** X11: in the scenario, whatever the services answer, no request is sent
    after a request that raised a connection error or whose response had a
    failure status: such a request is the last one, and the script does not
    return. *)
Theorem no_request_after_a_failed_one (w : world) :
  exists evs,
    w_trace (snd (test_ebics.scenario w)) = w_trace w ++ evs
    /\ forall l1 ev l2,
         evs = l1 ++ ev :: l2 ->
         is_failed_request ev = true ->
         Forall (fun ev' => is_request ev' = false) l2
         /\ is_Raise (fst (test_ebics.scenario w)).
Proof.
  destruct (scenario_fail_fast w) as (evs & Htrace & Hstop & Hok).
  exists evs. split; [exact Htrace|].
  intros l1 ev l2 -> Hbad. split.
  - by apply (stops_at_failure_split l1 l2 ev).
  - destruct (fst (test_ebics.scenario w)) as [a|e]; [|exact I].
    specialize (Hok I). apply no_failure_split in Hok. congruence.
Qed.

(** ** The order of the requests *)

Lemma requests_of_app (evs1 evs2 : list event) :
  requests_of (evs1 ++ evs2) = requests_of evs1 ++ requests_of evs2.
Proof.
  induction evs1 as [|ev evs1 IH]; [done|].
  destruct ev; cbn; by rewrite ?IH.
Qed.

Lemma requests_of_silent (evs : list event) :
  Forall (fun ev => is_request ev = false) evs -> requests_of evs = [].
Proof.
  induction 1 as [|ev evs Hev _ IH]; [done|]. by destruct ev.
Qed.

Lemma sends_bind {A B} (p1 p2 : list request) (m : M A) (k : A -> M B) :
  yields (sends p1) m -> (forall a, yields (sends p2) (k a)) ->
  yields (sends (p1 ++ p2)) (bind m k).
Proof.
  intros Hm Hk.
  apply (yields_bind (sends p1) (fun _ => sends p2) _ m k Hm Hk).
  - intros e evs [Hpre _]. split; [by apply prefix_app_r | by intros []].
  - intros a evs1 r evs2 [_ H1] [Hpre H2]. specialize (H1 I).
    unfold sends. rewrite requests_of_app, H1. split; [by apply prefix_app|].
    intros Hr. by rewrite (H2 Hr).
Qed.

Lemma sends_conv {A} (p p' : list request) (m : M A) :
  yields (sends p) m -> p = p' -> yields (sends p') m.
Proof. by intros Hm <-. Qed.

Lemma sends_http (req : request) : yields (sends [req]) (http req).
Proof.
  intros w. exists [EHttp req (env_http (w_env w) (w_trace w) req)].
  split; [done|]. by split.
Qed.

Lemma sends_silent {A} (m : M A) :
  steps (quietly (fun ev => is_request ev = false)) m -> yields (sends []) m.
Proof.
  intros Hm. apply (silent_yields _ m Hm). intros r evs Hevs.
  unfold sends. rewrite (requests_of_silent _ Hevs). by split.
Qed.

(** Effects without a payment initiation do not change which identifier
    the log shows. *)
Lemma returned_uuid_app (evs1 evs2 : list event) :
  forallb (fun r => negb (is_payment_initiation r)) (requests_of evs1) = true ->
  returned_uuid (evs1 ++ evs2) = returned_uuid evs2.
Proof.
  induction evs1 as [|ev evs1 IH]; [done|].
  destruct ev; cbn [requests_of app returned_uuid]; try exact IH.
  cbn [forallb]. intros [Hr Hrest]%andb_true_iff.
  apply negb_true_iff in Hr. rewrite Hr. by apply IH.
Qed.

Lemma returned_uuid_payment (ok : bool) (o : gmap string json)
    (evs : list event) :
  returned_uuid
    (EHttp test_ebics.payment_request (Some (Response ok (Some (JObj o)))) :: evs)
  = default JNull (o !! "uuid").
Proof. reflexivity. Qed.

(** Before the payment initiation the plan does not depend on the
    identifier. *)
Lemma sends_returned_bind {A B} (p1 : list request)
    (plan : json -> list request) (m : M A) (k : A -> M B) :
  yields (sends p1) m ->
  forallb (fun r => negb (is_payment_initiation r)) p1 = true ->
  (forall a, yields (sends_returned plan) (k a)) ->
  yields (sends_returned (fun uuid => p1 ++ plan uuid)) (bind m k).
Proof.
  intros Hm Hp1 Hk.
  apply (yields_bind (sends p1) (fun _ => sends_returned plan) _ m k Hm Hk).
  - intros e evs [Hpre _]. split; [by apply prefix_app_r | by intros []].
  - intros a evs1 r evs2 [_ H1] [Hpre H2]. specialize (H1 I).
    unfold sends_returned, sends.
    rewrite returned_uuid_app by (by rewrite H1).
    rewrite requests_of_app, H1. split; [by apply prefix_app|].
    intros Hr. by rewrite (H2 Hr).
Qed.

(** Collects the requests of a statement into a plan. *)
Ltac sends_step :=
  lazymatch goal with
  | |- yields (sends _) (bind _ _) =>
      eapply sends_bind; [sends_step | intros ?; sends_step]
  | |- yields (sends _) (http _) => apply sends_http
  | |- yields (sends _) _ => apply sends_silent; quiet_step
  end.

Ltac sends_exactly := eapply sends_conv; [sends_step | reflexivity].

(** The re-fetch of step 6 sends the body it gave to the checker. *)
Lemma step_6_fetch_run (w : world) :
  test_ebics.step_6_fetch w
  = match util.check (env_checkFetchTransactions (w_env w))
            test_ebics.fetch_body w with
    | (Ok _, w1) =>
        (r <- http fetch_request ;; util.assertResponse r ;; ret tt) w1
    | (Raise e, w1) => (Raise e, w1)
    end.
Proof.
  unfold test_ebics.step_6_fetch, json_checks.checkFetchTransactions, bind,
    post, ret.
  by destruct (util.check _ _ w) as [[[]|e] w1].
Qed.

Lemma step_6_fetch_sends :
  yields (sends [fetch_request]) test_ebics.step_6_fetch.
Proof.
  intros w. rewrite step_6_fetch_run.
  destruct (check_cases (env_checkFetchTransactions (w_env w))
              test_ebics.fetch_body w)
    as [-> | [(e & _ & ->) | (name & ->)]].
  - assert (Hrest : yields (sends [fetch_request])
                      (r <- http fetch_request ;; util.assertResponse r ;; ret tt))
      by sends_exactly.
    exact (Hrest w).
  - exists []. rewrite app_nil_r. split; [done|]. split; [apply prefix_nil|].
    by intros [].
  - exists [not_found name]. split; [done|]. split; [apply prefix_nil|].
    by intros [].
Qed.

Lemma after_prepare_sends (uuid : json) :
  yields (sends (payment_plan uuid)) (test_ebics.after_prepare uuid).
Proof.
  unfold test_ebics.after_prepare, test_ebics.from_step_6,
    test_ebics.from_step_6_count.
  eapply sends_conv.
  - eapply sends_bind; [|intros _; eapply sends_bind; [|intros _; eapply sends_bind;
      [apply step_6_fetch_sends | intros _]]].
    + unfold test_ebics.step_5a_inspect. sends_step.
    + unfold test_ebics.step_5b. sends_step.
    + unfold test_ebics.step_6_count. sends_step.
  - reflexivity.
Qed.

(** The payment initiation and what follows it: the identifier in the later
    requests is the one in the answer to the payment initiation. *)
(** [assertResponse] hands on a successful response and ends the run right
    after the diagnostics of any other. *)
Lemma assertResponse_cases (r : response) (w : world) :
  (resp_ok r = true /\ util.assertResponse r w = (Ok r, w))
  \/ (resp_ok r = false
      /\ exists e, util.assertResponse r w = (Raise e, log [EPrintResponse r] w)).
Proof.
  unfold util.assertResponse. destruct (resp_ok r); [by left|].
  right. split; [done|]. by eexists.
Qed.

Lemma from_step_5a_run (w : world) :
  test_ebics.from_step_5a w
  = match env_http (w_env w) (w_trace w) test_ebics.payment_request with
    | None =>
        (Raise ConnectionError, log [EHttp test_ebics.payment_request None] w)
    | Some resp =>
        match util.assertResponse resp
                (log [EHttp test_ebics.payment_request (Some resp)] w) with
        | (Raise e, w1) => (Raise e, w1)
        | (Ok resp', w1) =>
            match resp_json resp' with
            | None => (Raise JSONDecodeError, w1)
            | Some (JObj o) =>
                if is_None (default JNull (o !! "uuid")) then
                  (Raise (SystemExit 1),
                   log [EPrint "Payment UUID not received"] w1)
                else test_ebics.after_prepare (default JNull (o !! "uuid")) w1
            | Some _ => (Raise (AttributeError "get"), w1)
            end
        end
    end.
Proof.
  unfold test_ebics.from_step_5a, test_ebics.step_5a, bind, http.
  cbn [fst snd].
  destruct (env_http (w_env w) (w_trace w) test_ebics.payment_request)
    as [resp|]; [|reflexivity].
  destruct (util.assertResponse resp _) as [[resp'|e] w1]; [|reflexivity].
  unfold resp_json_m, py_get, test_ebics.fail, print, emit, exit, raise, ret,
    bind.
  destruct (resp_json resp') as [[| | | | |o]|]; try reflexivity.
  by destruct (is_None (default JNull (o !! "uuid"))).
Qed.

Lemma from_step_5a_sends :
  yields (sends_returned (fun uuid => test_ebics.payment_request :: payment_plan uuid))
    test_ebics.from_step_5a.
Proof.
  assert (Hstop : forall (e : exn) (a : option response) (evs : list event),
            Forall (fun ev => is_request ev = false) evs ->
            sends_returned
              (fun uuid => test_ebics.payment_request :: payment_plan uuid)
              (Raise e : result unit)
              (EHttp test_ebics.payment_request a :: evs)).
  { intros e a evs Hevs. unfold sends_returned, sends. cbn [requests_of].
    rewrite (requests_of_silent _ Hevs).
    split; [apply prefix_cons, prefix_nil | by intros []]. }
  intros w. rewrite from_step_5a_run.
  destruct (env_http (w_env w) (w_trace w) test_ebics.payment_request)
    as [resp|].
  - destruct (assertResponse_cases resp
                (log [EHttp test_ebics.payment_request (Some resp)] w))
      as [[Hok ->] | [Hok [e ->]]].
    + destruct resp as [ok j]. cbn [resp_ok resp_json] in *. subst ok.
      destruct j as [j|].
      * destruct j as [|b|n|s|l|o].
        1-5: (eexists [_]; cbn [fst snd];
              split; [by rewrite log_trace | by apply Hstop]).
        destruct (is_None (default JNull (o !! "uuid"))) eqn:Hnone.
        -- eexists [_; _]. cbn [fst snd].
           split; [by rewrite !log_trace, <- app_assoc|].
           apply Hstop. by repeat constructor.
        -- destruct (after_prepare_sends (default JNull (o !! "uuid"))
                       (log [EHttp test_ebics.payment_request
                               (Some (Response true (Some (JObj o))))] w))
             as (evs2 & Ht & Hpre & Hall).
           exists (EHttp test_ebics.payment_request
                     (Some (Response true (Some (JObj o)))) :: evs2).
           split; [by rewrite Ht, log_trace, <- app_assoc|].
           unfold sends_returned, sends.
           rewrite returned_uuid_payment. cbn [requests_of].
           split; [by apply prefix_cons|].
           intros Hr. by rewrite (Hall Hr).
      * eexists [_]. cbn [fst snd].
        split; [by rewrite log_trace | by apply Hstop].
    + eexists [_; _]. cbn [fst snd].
      split; [by rewrite !log_trace, <- app_assoc|].
      apply Hstop. by repeat constructor.
  - eexists [_]. cbn [fst snd].
    split; [by rewrite log_trace | by apply Hstop].
Qed.

(** Walks down the chain of the steps of the scenario. *)
Ltac scenario_chain :=
  lazymatch goal with
  | |- yields (sends_returned _) test_ebics.from_step_5a =>
      apply from_step_5a_sends
  | |- yields (sends_returned _) (bind _ _) =>
      eapply sends_returned_bind;
        [ unfold test_ebics.step_0a, test_ebics.step_0b, test_ebics.step_0c,
            test_ebics.step_1a, test_ebics.step_1b, test_ebics.step_2a,
            test_ebics.step_2b, test_ebics.step_tsd, test_ebics.step_2c,
            test_ebics.step_3, test_ebics.step_4, post;
          sends_step
        | vm_compute; reflexivity
        | intros _; scenario_chain ]
  end.

Lemma scenario_sends : yields (sends_returned scenario_plan) test_ebics.scenario.
Proof.
  assert (Hplan : forall p (plan : json -> list request),
            yields (sends_returned plan) test_ebics.scenario ->
            (forall uuid, plan uuid = p uuid) ->
            yields (sends_returned p) test_ebics.scenario).
  { intros p plan Hy Heq w. destruct (Hy w) as (evs & Ht & Hs).
    exists evs. split; [done|]. unfold sends_returned. by rewrite <- Heq. }
  eapply Hplan.
  - unfold test_ebics.scenario, test_ebics.from_step_4.
    scenario_chain.
  - intros uuid. reflexivity.
Qed.

(** X12: in the scenario the requests always go out in the order of the
    script: whatever the services answer, the requests sent are a prefix of
    the fixed sequence of seventeen, and they are the whole sequence when
    the script returns.  The identifier in the addresses of the fourteenth
    and the fifteenth request is the value under "uuid" in the answer that
    the log shows for the payment initiation. *)
Theorem scenario_requests_in_order (w : world) :
  exists evs,
    w_trace (snd (test_ebics.scenario w)) = w_trace w ++ evs
    /\ requests_of evs `prefix_of` scenario_plan (returned_uuid evs)
    /\ (fst (test_ebics.scenario w) = Ok tt ->
          requests_of evs = scenario_plan (returned_uuid evs)).
Proof.
  destruct (scenario_sends w) as (evs & Htrace & Hpre & Hall).
  exists evs. split; [exact Htrace|]. split; [exact Hpre|].
  intros Hok. apply Hall. by rewrite Hok.
Qed.

(** * Exit codes and readiness *)

Lemma scenario_never_exits_77 : raises not_exit_77 test_ebics.scenario.
Proof. unfold_scenario. raises_step. Qed.

Lemma startSandbox_no_scenario_request (dbname : string) :
  steps (grows (fun ev => is_scenario_request ev = false))
    (util.startSandbox dbname).
Proof.
  unfold util.startSandbox. with_db_path dbname.
  unfold util.startSandbox_loop. grows_step.
Qed.

Lemma startNexus_no_scenario_request (dbname : string) :
  steps (grows (fun ev => is_scenario_request ev = false))
    (util.startNexus dbname).
Proof.
  unfold util.startNexus. with_db_path dbname.
  unfold util.startNexus_loop. grows_step.
Qed.

(** The script by cases on where it stops. *)
Lemma main_cases (w : world) :
  (exists e,
     util.startSandbox util.startSandbox_dbname w = (Raise e, snd (test_ebics.main w))
     /\ fst (test_ebics.main w) = Raise e)
  \/ (exists w1 e,
        util.startSandbox util.startSandbox_dbname w = (Ok tt, w1)
        /\ util.startNexus test_ebics.NEXUS_DB w1 = (Raise e, snd (test_ebics.main w))
        /\ fst (test_ebics.main w) = Raise e)
  \/ (exists w1 nexus w2,
        util.startSandbox util.startSandbox_dbname w = (Ok tt, w1)
        /\ util.startNexus test_ebics.NEXUS_DB w1 = (Ok nexus, w2)
        /\ test_ebics.main w = test_ebics.scenario w2).
Proof.
  unfold test_ebics.main, bind.
  destruct (util.startSandbox util.startSandbox_dbname w) as [[[]|e] w1].
  - destruct (util.startNexus test_ebics.NEXUS_DB w1) as [[nexus|e] w2] eqn:Hn.
    + right. right. by exists w1, nexus, w2.
    + right. left. by exists w1, e.
  - left. by exists e.
Qed.

(** X13: an exit with code 77 comes from bringing up the services, never
    from the scenario: in a run that ends by [exit(77)] not one request of
    the scenario was sent. *)
Theorem exit_77_before_the_scenario (w : world) :
  fst (test_ebics.main w) = Raise (SystemExit 77) ->
  exists evs,
    w_trace (snd (test_ebics.main w)) = w_trace w ++ evs
    /\ Forall (fun ev => is_scenario_request ev = false) evs.
Proof.
  intros Hexit.
  destruct (main_cases w)
    as [(e & Hs & _) | [(w1 & e & Hs & Hn & _) | (w1 & nexus & w2 & _ & _ & Hm)]].
  - exact (steps_run _ _ _ _ _
             (startSandbox_no_scenario_request util.startSandbox_dbname) Hs).
  - pose proof (steps_run _ _ _ _ _
                  (startSandbox_no_scenario_request util.startSandbox_dbname) Hs)
      as H1.
    pose proof (steps_run _ _ _ _ _
                  (startNexus_no_scenario_request test_ebics.NEXUS_DB) Hn) as H2.
    change (grows (fun ev => is_scenario_request ev = false) w
              (snd (test_ebics.main w))).
    by transitivity w1.
  - rewrite Hm in Hexit.
    by destruct (scenario_never_exits_77 w2 _ Hexit).
Qed.

Lemma exit_77_before_the_scenario_witness :
  fst (test_ebics.main (Sim.initial_world Sim.no_nexus_env ∅))
  = Raise (SystemExit 77)
  /\ exists evs,
       w_trace (snd (test_ebics.main (Sim.initial_world Sim.no_nexus_env ∅)))
       = w_trace (Sim.initial_world Sim.no_nexus_env ∅) ++ evs
       /\ Forall (fun ev => is_scenario_request ev = false) evs.
Proof.
  assert (Hexit :
    fst (test_ebics.main (Sim.initial_world Sim.no_nexus_env ∅))
    = Raise (SystemExit 77)) by (vm_compute; reflexivity).
  split; [exact Hexit|].
  exact (exit_77_before_the_scenario _ Hexit).
Defined.

(** X14: the exit status of a run is 0, 1 or 77, whatever the environment
    does, unless the script was ended by [assertResponse] right after it
    printed the diagnostics of a response. *)
Theorem run_status_0_1_77 (w : world) :
  fst (python test_ebics.main w) = 0
  \/ fst (python test_ebics.main w) = 1
  \/ fst (python test_ebics.main w) = 77
  \/ (exists code r,
        fst (test_ebics.main w) = Raise (SystemExit code)
        /\ last_effect (snd (test_ebics.main w)) = Some (EPrintResponse r)).
Proof.
  assert (Hstatus : fst (python test_ebics.main w)
                    = exit_status (fst (test_ebics.main w))).
  { unfold python. by destruct (test_ebics.main w). }
  rewrite Hstatus.
  destruct (fst (test_ebics.main w)) as [[]|e] eqn:Hr; [by left|].
  destruct e; try (right; left; reflexivity).
  destruct (main_exit_reported w _ Hr)
    as (ev & Hlast & [[r ->] | [[-> _] | [-> _]]]); cbn; auto.
  do 3 right. by exists code, r.
Qed.

Lemma split_after_prefix (f : event -> bool) (pre rest l1 l2 : list event)
    (ev : event) :
  Forall (fun ev' => f ev' = false) pre ->
  pre ++ rest = l1 ++ ev :: l2 ->
  f ev = true ->
  exists l1', l1 = pre ++ l1' /\ rest = l1' ++ ev :: l2.
Proof.
  intros Hpre. revert l1. induction Hpre as [|x pre Hx _ IH]; intros l1 Heq Hev.
  - by exists l1.
  - destruct l1 as [|y l1]; cbn in Heq; injection Heq as -> Heq.
    + congruence.
    + destruct (IH l1 Heq Hev) as (l1' & -> & ->). by exists l1'.
Qed.

Lemma startSandbox_ready (w w1 : world) :
  util.startSandbox util.startSandbox_dbname w = (Ok tt, w1) ->
  exists evs,
    w_trace w1 = w_trace w ++ evs
    /\ Forall (fun ev => is_scenario_request ev = false) evs
    /\ existsb (is_answered_probe util.SANDBOX_ROOT) evs = true.
Proof.
  intros Hs.
  destruct (steps_run _ _ _ _ _
              (startSandbox_no_scenario_request util.startSandbox_dbname) Hs)
    as (evs & Htrace & Hevs).
  exists evs. split; [exact Htrace|]. split; [exact Hevs|].
  pose proof (startSandbox_cases util.startSandbox_dbname w) as Hout.
  cbv zeta in Hout. rewrite Hs in Hout. cbn [fst snd] in Hout.
  destruct Hout as [[[Hf|Hf] _] | (_ & _ & _ & [(k & resp & _ & _ & Ht) | [Hf _]])];
    try discriminate.
  rewrite Htrace in Ht. apply app_inv_head in Ht. rewrite Ht.
  rewrite !existsb_app. cbn. by rewrite !orb_true_r.
Qed.

Lemma startNexus_ready (w w1 : world) (nexus : proc) :
  util.startNexus test_ebics.NEXUS_DB w = (Ok nexus, w1) ->
  exists evs,
    w_trace w1 = w_trace w ++ evs
    /\ Forall (fun ev => is_scenario_request ev = false) evs
    /\ existsb (is_answered_probe util.NEXUS_ROOT) evs = true.
Proof.
  intros Hs.
  destruct (steps_run _ _ _ _ _
              (startNexus_no_scenario_request test_ebics.NEXUS_DB) Hs)
    as (evs & Htrace & Hevs).
  exists evs. split; [exact Htrace|]. split; [exact Hevs|].
  pose proof (startNexus_cases test_ebics.NEXUS_DB w) as Hout.
  cbv zeta in Hout. rewrite Hs in Hout. cbn [fst snd] in Hout.
  destruct Hout as [[[Hf|Hf] _] | (_ & _ & [(k & resp & _ & _ & _ & Ht) | [Hf _]])];
    try discriminate.
  rewrite Htrace in Ht. apply app_inv_head in Ht. rewrite Ht.
  rewrite !existsb_app. cbn. by rewrite !orb_true_r.
Qed.

Lemma no_scenario_request_in (evs l1 l2 : list event) (ev : event) :
  Forall (fun ev' => is_scenario_request ev' = false) evs ->
  evs = l1 ++ ev :: l2 -> is_scenario_request ev = true -> False.
Proof.
  intros Hevs -> Hev. apply Forall_app in Hevs as [_ Hevs].
  apply Forall_cons in Hevs as [Hevs _]. congruence.
Qed.

(** X15: both services are ready before the scenario starts: in every run,
    each request of the scenario comes after a probe of the sandbox and a
    probe of the nexus that were answered. *)
Theorem services_ready_before_scenario (w : world) :
  exists evs,
    w_trace (snd (test_ebics.main w)) = w_trace w ++ evs
    /\ forall l1 ev l2,
         evs = l1 ++ ev :: l2 ->
         is_scenario_request ev = true ->
         existsb (is_answered_probe util.SANDBOX_ROOT) l1 = true
         /\ existsb (is_answered_probe util.NEXUS_ROOT) l1 = true.
Proof.
  destruct (main_cases w)
    as [(e & Hs & _) | [(w1 & e & Hs & Hn & _) | (w1 & nexus & w2 & Hs & Hn & Hm)]].
  - destruct (steps_run _ _ _ _ _
                (startSandbox_no_scenario_request util.startSandbox_dbname) Hs)
      as (evs & Htrace & Hevs).
    exists evs. split; [exact Htrace|]. intros l1 ev l2 Heq Hev.
    destruct (no_scenario_request_in _ _ _ _ Hevs Heq Hev).
  - destruct (steps_run _ _ _ _ _
                (startSandbox_no_scenario_request util.startSandbox_dbname) Hs)
      as (evs1 & Ht1 & Hevs1).
    destruct (steps_run _ _ _ _ _
                (startNexus_no_scenario_request test_ebics.NEXUS_DB) Hn)
      as (evs2 & Ht2 & Hevs2).
    exists (evs1 ++ evs2). rewrite Ht2, Ht1, app_assoc. split; [done|].
    intros l1 ev l2 Heq Hev.
    assert (Hevs : Forall (fun ev' => is_scenario_request ev' = false)
                     (evs1 ++ evs2)) by (by apply Forall_app).
    destruct (no_scenario_request_in _ _ _ _ Hevs Heq Hev).
  - destruct (startSandbox_ready _ _ Hs) as (evs1 & Ht1 & Hevs1 & Hp1).
    destruct (startNexus_ready _ _ _ Hn) as (evs2 & Ht2 & Hevs2 & Hp2).
    destruct (scenario_fail_fast w2) as (evs3 & Ht3 & _).
    exists ((evs1 ++ evs2) ++ evs3). rewrite Hm, Ht3, Ht2, Ht1.
    split; [by rewrite !app_assoc|].
    intros l1 ev l2 Heq Hev.
    assert (Hevs : Forall (fun ev' => is_scenario_request ev' = false)
                     (evs1 ++ evs2)) by (by apply Forall_app).
    destruct (split_after_prefix is_scenario_request _ _ _ _ _ Hevs Heq Hev)
      as (l1' & -> & _).
    rewrite !existsb_app, Hp1, Hp2. by rewrite !orb_true_r.
Qed.

(** A run in which the gateway rejects the fourth request of the scenario:
    the first four requests of the plan were sent and no other, the last
    thing the script did was to print the diagnostics of the response, and
    the status is not 0. *)
Example run_with_rejected_user :
  let w := Sim.initial_world users_rejected_env ∅ in
  requests_of (w_trace (snd (test_ebics.scenario w)))
  = take 4 (scenario_plan JNull)
  /\ last_effect (snd (test_ebics.scenario w))
     = Some (EPrintResponse (Response false None))
  /\ fst (python test_ebics.main w) <> 0.
Proof. vm_compute. done. Qed.
